(** * Platform file explorer: the IPC command handlers and the directory model

    A shallow embedding of [backend/examples/platform_file_explorer/main.py]
    (class [PlatformFileExplorer]).  The GTK widgets the handlers read and
    write are kept as plain data ([file_store], the tree selection, the
    preview box), the operating system is an explicit file-system value, and
    standard output / standard error are message lists.

    The reader thread hands every parsed line to the main loop
    ([GLib.idle_add]), so commands and user gestures run one at a time: they
    are the events of [Explorer.step].  A line that is not JSON never reaches
    [handle_command].  Left out because they only draw: the text
    [format_size] renders, the scaling of a previewed picture, the layout
    built by [build_ui]. *)

From Stdlib Require Import Strings.Byte Ascii String DecimalString ZArith NArith Lia.
From stdpp Require Import gmap strings list sorting.

Set Warnings "-register-all,-abstract-large-number".

(** ** Strings

    Python [str] values that reach the operating system are modelled by their
    UTF-8 bytes (Rocq [string]); comparing such strings byte by byte is the
    code-point order Python's [list.sort] uses. *)

Module Str.

Definition slash : ascii := "/"%char.
Definition dot : ascii := "."%char.

Definition is_empty (s : string) : bool :=
  match s with EmptyString => true | _ => false end.

(** [s.startswith(c)] for a one-character [c]. *)
Definition startswith (c : ascii) (s : string) : bool :=
  match s with
  | String a _ => Ascii.eqb a c
  | EmptyString => false
  end.

(** [s.endswith(c)] for a one-character [c]. *)
Fixpoint endswith (c : ascii) (s : string) : bool :=
  match s with
  | EmptyString => false
  | String a EmptyString => Ascii.eqb a c
  | String _ s' => endswith c s'
  end.

(** [c in s]. *)
Fixpoint contains (c : ascii) (s : string) : bool :=
  match s with
  | EmptyString => false
  | String a s' => Ascii.eqb a c || contains c s'
  end.

(** [s.split(c)]: never empty, [split c "" = [""]]. *)
Fixpoint split (c : ascii) (s : string) : list string :=
  match s with
  | EmptyString => [EmptyString]
  | String a s' =>
      if Ascii.eqb a c then EmptyString :: split c s'
      else match split c s' with
           | h :: t => String a h :: t
           | [] => [String a EmptyString]
           end
  end.

(** [s.rstrip(c)]. *)
Fixpoint rstrip (c : ascii) (s : string) : string :=
  match s with
  | EmptyString => EmptyString
  | String a s' =>
      let r := rstrip c s' in
      if Ascii.eqb a c && is_empty r then EmptyString else String a r
  end.

(** [s[:s.rfind(c)+1]]: everything up to and including the last [c]. *)
Fixpoint upto_last (c : ascii) (s : string) : string :=
  match s with
  | EmptyString => EmptyString
  | String a s' =>
      if contains c (String a s') then String a (upto_last c s')
      else EmptyString
  end.

(** [s[s.rfind(c)+1:]]: everything after the last [c]. *)
Fixpoint after_last (c : ascii) (s : string) : string :=
  match s with
  | EmptyString => EmptyString
  | String a s' =>
      if contains c (String a s') then after_last c s' else String a s'
  end.

(** [s == c * len(s)]. *)
Fixpoint all_char (c : ascii) (s : string) : bool :=
  match s with
  | EmptyString => true
  | String a s' => Ascii.eqb a c && all_char c s'
  end.

(** [s.lower()] on the ASCII letters; bytes of non-ASCII characters are left
    as they are. *)
Definition lower_ascii (a : ascii) : ascii :=
  let n := nat_of_ascii a in
  if (65 <=? n)%nat && (n <=? 90)%nat then ascii_of_nat (n + 32) else a.

Fixpoint lower (s : string) : string :=
  match s with
  | EmptyString => EmptyString
  | String a s' => String (lower_ascii a) (lower s')
  end.

End Str.

(** ** [os.path] (posixpath) *)

Module Path.

(** [os.path.join(a, b)]. *)
Definition join (a b : string) : string :=
  if Str.startswith Str.slash b then b
  else if Str.is_empty a || Str.endswith Str.slash a then a +:+ b
  else a +:+ "/" +:+ b.

(** [os.path.basename(p)]. *)
Definition basename (p : string) : string := Str.after_last Str.slash p.

(** [os.path.dirname(p)]. *)
Definition dirname (p : string) : string :=
  let head := Str.upto_last Str.slash p in
  if negb (Str.is_empty head) && negb (Str.all_char Str.slash head)
  then Str.rstrip Str.slash head
  else head.

(** [os.path.splitext(p)[1]]: the extension starts at the last dot of the
    last component, unless that component has only leading dots before it. *)
Fixpoint strip_leading_dots (s : string) : string :=
  match s with
  | String a s' => if Ascii.eqb a Str.dot then strip_leading_dots s' else s
  | EmptyString => EmptyString
  end.

Fixpoint from_last_dot (s : string) : string :=
  match s with
  | EmptyString => EmptyString
  | String a s' =>
      if Str.contains Str.dot s' then from_last_dot s'
      else if Ascii.eqb a Str.dot then String a s' else EmptyString
  end.

Definition splitext_ext (p : string) : string :=
  from_last_dot (strip_leading_dots (basename p)).

End Path.

(** ** Exceptions

    Every failing library call raises; [str(e)] is what the handlers put in
    an [error] message. *)

Inductive errno := ENOENT | EACCES | EBUSY | ENOTDIR | EISDIR | ENOTEMPTY.

Inductive exn :=
| OSError (e : errno) (filename : string)
| ValueError (msg : string)
| TypeError (msg : string)
| AttributeError (msg : string)
| BinasciiError (msg : string)
| UnicodeDecodeError (msg : string)
| GLibError (msg : string).

Definition errno_text (e : errno) : string :=
  match e with
  | ENOENT => "[Errno 2] No such file or directory"
  | EACCES => "[Errno 13] Permission denied"
  | EBUSY => "[Errno 16] Device or resource busy"
  | ENOTDIR => "[Errno 20] Not a directory"
  | EISDIR => "[Errno 21] Is a directory"
  | ENOTEMPTY => "[Errno 39] Directory not empty"
  end.

(** [repr] of a path; the escaping [repr] applies to quotes, backslashes and
    non-printable characters is not modelled. *)
Definition py_repr (s : string) : string := "'" +:+ s +:+ "'".

(** [str(e)]. *)
Definition str_exn (e : exn) : string :=
  match e with
  | OSError n f => errno_text n +:+ ": " +:+ py_repr f
  | ValueError m | TypeError m | AttributeError m | BinasciiError m
  | UnicodeDecodeError m | GLibError m => m
  end.

(** [result A]: a call either raises ([inl]) or returns ([inr]). *)
Abbreviation result A := (exn + A)%type.

(** ** The file system

    A path is resolved component by component to a key (the list of names
    from the root).  A node is a regular file with its read / write
    permission and content, a directory with its read (list) / write (create
    and remove children) permission, or a broken symbolic link: a name the
    directory lists but [stat] cannot follow.  Symbolic links that resolve,
    search permission and races with other processes are not modelled. *)

Inductive node :=
| File (readable writable : bool) (data : list byte)
| Dir (readable writable : bool)
| Broken.

Record FS := mkFS {
  nodes : gmap (list string) node;
  cwd : list string
}.

Module Os.

Definition is_dir_key (m : gmap (list string) node) (k : list string) : bool :=
  match m !! k with Some (Dir _ _) => true | _ => false end.

Definition is_file_key (m : gmap (list string) node) (k : list string) : bool :=
  match m !! k with Some (File _ _ _) => true | _ => false end.

(** One step of path resolution: the directory reached so far must be a
    directory; an empty component and [.] stay, [..] goes up (the root is its
    own parent), a name goes down whether or not it exists. *)
Definition walk_step (m : gmap (list string) node)
    (acc : option (list string)) (c : string) : option (list string) :=
  match acc with
  | None => None
  | Some k =>
      if is_dir_key m k then
        if decide (c = "" ∨ c = ".") then Some k
        else if decide (c = "..") then Some (removelast k)
        else Some (k ++ [c])
      else None
  end.

Definition nul : ascii := Ascii.zero.

(** The key a path names, if its directories exist.  The empty path and a
    path with an embedded NUL name nothing; a path through something that is
    not a directory names nothing either (the calls below report it as
    [ENOENT], also where the system would say [ENOTDIR]). *)
Definition namei (fs : FS) (p : string) : option (list string) :=
  if Str.is_empty p || Str.contains nul p then None
  else foldl (walk_step (nodes fs))
         (Some (if Str.startswith Str.slash p then [] else cwd fs))
         (Str.split Str.slash p).

(** How the calls that raise see a path: an embedded NUL is a [ValueError],
    a path that names nothing is [ENOENT]. *)
Definition resolve (fs : FS) (p : string) : result (list string) :=
  if Str.contains nul p then inl (ValueError "embedded null byte")
  else match namei fs p with
       | Some k => inr k
       | None => inl (OSError ENOENT p)
       end.

(** [os.path.isdir], [os.path.isfile]: never raise. *)
Definition isdir (fs : FS) (p : string) : bool :=
  match namei fs p with
  | Some k => is_dir_key (nodes fs) k
  | None => false
  end.

Definition isfile (fs : FS) (p : string) : bool :=
  match namei fs p with
  | Some k => is_file_key (nodes fs) k
  | None => false
  end.

(** [os.stat(p).st_size]; the size reported for a directory is not used by
    the program and is given as 0. *)
Definition stat (fs : FS) (p : string) : result N :=
  match resolve fs p with
  | inr k =>
      match nodes fs !! k with
      | Some (File _ _ d) => inr (N.of_nat (length d))
      | Some (Dir _ _) => inr 0%N
      | Some Broken | None => inl (OSError ENOENT p)
      end
  | inl e => inl e
  end.

Fixpoint strip_prefix (k key : list string) : option (list string) :=
  match k, key with
  | [], rest => Some rest
  | a :: k', b :: key' => if decide (a = b) then strip_prefix k' key' else None
  | _ :: _, [] => None
  end.

Definition child_of (k key : list string) : option string :=
  match strip_prefix k key with
  | Some [n] => Some n
  | _ => None
  end.

(** The names directly under key [k], in the order the map enumerates them
    ([os.listdir] promises no order). *)
Definition children (m : gmap (list string) node) (k : list string) : list string :=
  omap (fun kv => child_of k kv.1) (map_to_list m).

(** [os.listdir(p)]. *)
Definition listdir (fs : FS) (p : string) : result (list string) :=
  match resolve fs p with
  | inr k =>
      match nodes fs !! k with
      | Some (Dir r _) =>
          if r then inr (children (nodes fs) k) else inl (OSError EACCES p)
      | Some (File _ _ _) => inl (OSError ENOTDIR p)
      | Some Broken | None => inl (OSError ENOENT p)
      end
  | inl e => inl e
  end.

Definition parent_writable (m : gmap (list string) node) (k : list string) : bool :=
  match m !! removelast k with
  | Some (Dir _ w) => w
  | _ => false
  end.

(** [open(p, 'wb')]: creates or truncates the file and gives its key. *)
Definition open_wb (fs : FS) (p : string) : result (FS * list string) :=
  match resolve fs p with
  | inr k =>
      match nodes fs !! k with
      | Some (Dir _ _) => inl (OSError EISDIR p)
      | Some (File r w _) =>
          if w then inr (mkFS (<[k := File r w []]> (nodes fs)) (cwd fs), k)
          else inl (OSError EACCES p)
      | Some Broken => inl (OSError ENOENT p)
      | None =>
          match nodes fs !! removelast k with
          | Some (Dir _ w) =>
              if w then inr (mkFS (<[k := File true true []]> (nodes fs)) (cwd fs), k)
              else inl (OSError EACCES p)
          | _ => inl (OSError ENOENT p)
          end
      end
  | inl e => inl e
  end.

(** [f.write(data)] and the close at the end of the [with] block, on the
    file [open_wb] gave. *)
Definition write (fs : FS) (k : list string) (data : list byte) : FS :=
  match nodes fs !! k with
  | Some (File r w old) => mkFS (<[k := File r w (old ++ data)]> (nodes fs)) (cwd fs)
  | _ => fs
  end.

(** [open(p, 'rb').read()]. *)
Definition read (fs : FS) (p : string) : result (list byte) :=
  match resolve fs p with
  | inr k =>
      match nodes fs !! k with
      | Some (File r _ d) => if r then inr d else inl (OSError EACCES p)
      | Some (Dir _ _) => inl (OSError EISDIR p)
      | Some Broken | None => inl (OSError ENOENT p)
      end
  | inl e => inl e
  end.

(** [os.remove(p)]. *)
Definition remove (fs : FS) (p : string) : result FS :=
  match resolve fs p with
  | inr k =>
      match nodes fs !! k with
      | Some (File _ _ _) | Some Broken =>
          if parent_writable (nodes fs) k
          then inr (mkFS (delete k (nodes fs)) (cwd fs))
          else inl (OSError EACCES p)
      | Some (Dir _ _) => inl (OSError EISDIR p)
      | None => inl (OSError ENOENT p)
      end
  | inl e => inl e
  end.

(** [os.rmdir(p)]: only an empty directory goes. *)
Definition rmdir (fs : FS) (p : string) : result FS :=
  match resolve fs p with
  | inr k =>
      match nodes fs !! k with
      | Some (Dir _ _) =>
          if decide (k = []) then inl (OSError EBUSY p)
          else if negb (parent_writable (nodes fs) k) then inl (OSError EACCES p)
          else match children (nodes fs) k with
               | [] => inr (mkFS (delete k (nodes fs)) (cwd fs))
               | _ :: _ => inl (OSError ENOTEMPTY p)
               end
      | Some (File _ _ _) | Some Broken => inl (OSError ENOTDIR p)
      | None => inl (OSError ENOENT p)
      end
  | inl e => inl e
  end.

End Os.

(** ** [base64] (RFC 4648, as [binascii] implements it) *)

Module Base64.

Definition alphabet : string :=
  "ABCDEFGHIJKLMNOPQRSTUVWXYZabcdefghijklmnopqrstuvwxyz0123456789+/".

Definition pad : ascii := "="%char.

(** [table_b2a_base64[n]]. *)
Definition b2a (n : N) : ascii :=
  match String.get (N.to_nat n) alphabet with
  | Some c => c
  | None => pad
  end.

(** [table_a2b_base64[c]]: the sextet of an alphabet character. *)
Definition a2b (c : ascii) : option N :=
  let n := N_of_ascii c in
  if ((65 <=? n) && (n <=? 90))%N then Some (n - 65)%N
  else if ((97 <=? n) && (n <=? 122))%N then Some (n - 71)%N
  else if ((48 <=? n) && (n <=? 57))%N then Some (n + 4)%N
  else if (n =? 43)%N then Some 62%N
  else if (n =? 47)%N then Some 63%N
  else None.

(** Storing into an [unsigned char]. *)
Definition byte_of (n : N) : byte :=
  match Byte.of_N (N.land n 255) with
  | Some b => b
  | None => x00
  end.

(** [binascii.b2a_base64(bs, newline=False)]: three bytes give four
    characters; one or two bytes left over are padded with [=]. *)
Fixpoint encode_chars (bs : list byte) : list ascii :=
  match bs with
  | [] => []
  | [a] =>
      let x := Byte.to_N a in
      [b2a (N.shiftr x 2); b2a (N.shiftl (N.land x 3) 4); pad; pad]
  | [a; b] =>
      let x := Byte.to_N a in
      let y := Byte.to_N b in
      [b2a (N.shiftr x 2);
       b2a (N.lor (N.shiftl (N.land x 3) 4) (N.shiftr y 4));
       b2a (N.shiftl (N.land y 15) 2); pad]
  | a :: b :: c :: rest =>
      let x := Byte.to_N a in
      let y := Byte.to_N b in
      let z := Byte.to_N c in
      b2a (N.shiftr x 2)
      :: b2a (N.lor (N.shiftl (N.land x 3) 4) (N.shiftr y 4))
      :: b2a (N.lor (N.shiftl (N.land y 15) 2) (N.shiftr z 6))
      :: b2a (N.land z 63)
      :: encode_chars rest
  end.

(** [base64.b64encode(bs).decode('utf-8')]. *)
Definition b64encode (bs : list byte) : string :=
  string_of_list_ascii (encode_chars bs).

(** The decoder's registers ([a2b_base64], not strict). *)
Record dstate := mkD {
  quad_pos : nat;
  leftchar : N;
  pads : nat;
  out : list byte
}.

Definition dinit : dstate := mkD 0 0 0 [].

Definition data_chars_msg (st : dstate) : string :=
  "Invalid base64-encoded string: number of data characters ("
  +:+ NilEmpty.string_of_uint (N.to_uint (N.of_nat (length (out st) `div` 3 * 4 + 1)))
  +:+ ") cannot be 1 more than a multiple of 4".

(** The decoding loop: characters outside the alphabet are skipped, a
    complete pad sequence ends the input, a dangling quad is an error. *)
Fixpoint a2b_loop (cs : list ascii) (st : dstate) : result (list byte) :=
  match cs with
  | [] =>
      match quad_pos st with
      | 0 => inr (out st)
      | 1 => inl (BinasciiError (data_chars_msg st))
      | _ => inl (BinasciiError "Incorrect padding")
      end
  | c :: cs' =>
      if Ascii.eqb c pad then
        if (2 <=? quad_pos st)%nat then
          if (4 <=? quad_pos st + S (pads st))%nat then inr (out st)
          else a2b_loop cs' (mkD (quad_pos st) (leftchar st) (S (pads st)) (out st))
        else a2b_loop cs' st
      else
        match a2b c with
        | None => a2b_loop cs' st
        | Some v =>
            match quad_pos st with
            | 0 => a2b_loop cs' (mkD 1 v 0 (out st))
            | 1 =>
                a2b_loop cs'
                  (mkD 2 (N.land v 15) 0
                     (out st ++ [byte_of (N.lor (N.shiftl (leftchar st) 2) (N.shiftr v 4))]))
            | 2 =>
                a2b_loop cs'
                  (mkD 3 (N.land v 3) 0
                     (out st ++ [byte_of (N.lor (N.shiftl (leftchar st) 4) (N.shiftr v 2))]))
            | _ =>
                a2b_loop cs'
                  (mkD 0 0 0
                     (out st ++ [byte_of (N.lor (N.shiftl (leftchar st) 6) v)]))
            end
        end
  end.

Definition is_ascii (c : ascii) : bool := (N_of_ascii c <? 128)%N.

(** [base64.b64decode(s)] for a [str] argument. *)
Definition b64decode (s : string) : result (list byte) :=
  let cs := list_ascii_of_string s in
  if forallb is_ascii cs then a2b_loop cs dinit
  else inl (ValueError "string argument should contain only ASCII characters").

End Base64.

(** ** Text mode reading: UTF-8 and universal newlines *)

Module Text.

Definition cont (b : N) : bool := ((128 <=? b) && (b <=? 191))%N.

Definition cbits (b : N) : N := N.land b 63.

(** The strict UTF-8 decoder: no overlong forms, no surrogates, nothing
    above U+10FFFF. *)
Fixpoint utf8_decode (bs : list byte) : option (list N) :=
  match bs with
  | [] => Some []
  | b0 :: r0 =>
      let n0 := Byte.to_N b0 in
      if (n0 <? 128)%N then cons n0 <$> utf8_decode r0
      else if ((194 <=? n0) && (n0 <=? 223))%N then
        match r0 with
        | b1 :: r1 =>
            let n1 := Byte.to_N b1 in
            if cont n1
            then cons (N.lor (N.shiftl (N.land n0 31) 6) (cbits n1)) <$> utf8_decode r1
            else None
        | _ => None
        end
      else if ((224 <=? n0) && (n0 <=? 239))%N then
        match r0 with
        | b1 :: b2 :: r2 =>
            let n1 := Byte.to_N b1 in
            let n2 := Byte.to_N b2 in
            let lo := if (n0 =? 224)%N then 160%N else 128%N in
            let hi := if (n0 =? 237)%N then 159%N else 191%N in
            if ((lo <=? n1) && (n1 <=? hi))%N && cont n2
            then cons (N.lor (N.shiftl (N.land n0 15) 12)
                         (N.lor (N.shiftl (cbits n1) 6) (cbits n2)))
                   <$> utf8_decode r2
            else None
        | _ => None
        end
      else if ((240 <=? n0) && (n0 <=? 244))%N then
        match r0 with
        | b1 :: b2 :: b3 :: r3 =>
            let n1 := Byte.to_N b1 in
            let n2 := Byte.to_N b2 in
            let n3 := Byte.to_N b3 in
            let lo := if (n0 =? 240)%N then 144%N else 128%N in
            let hi := if (n0 =? 244)%N then 143%N else 191%N in
            if ((lo <=? n1) && (n1 <=? hi))%N && cont n2 && cont n3
            then cons (N.lor (N.shiftl (N.land n0 7) 18)
                         (N.lor (N.shiftl (cbits n1) 12)
                            (N.lor (N.shiftl (cbits n2) 6) (cbits n3))))
                   <$> utf8_decode r3
            else None
        | _ => None
        end
      else None
  end.

(** [newline=None] on reading: [\r\n] and a lone [\r] become [\n]. *)
Fixpoint universal_newlines (cs : list N) : list N :=
  match cs with
  | [] => []
  | c :: r =>
      if (c =? 13)%N then
        match r with
        | d :: r' =>
            if (d =? 10)%N then 10%N :: universal_newlines r'
            else 10%N :: universal_newlines r
        | [] => [10%N]
        end
      else c :: universal_newlines r
  end.

(** The number of bytes a code point takes in UTF-8. *)
Definition utf8_len (c : N) : nat :=
  if (c <? 128)%N then 1 else if (c <? 2048)%N then 2
  else if (c <? 65536)%N then 3 else 4.

Definition utf8_size (cs : list N) : nat := sum_list (utf8_len <$> cs).

(** A decoded character in front of what a prefix decoding gave. *)
Definition push (c : N) (d : list N * list byte) : list N * list byte :=
  (c :: d.1, d.2).

(** The incremental decoder: the characters of the longest prefix of [bs]
    that decodes, and the bytes left where it stops, at the first sequence
    that is ill-formed or cut short.  The branches are those of
    [utf8_decode]. *)
Fixpoint utf8_prefix (bs : list byte) : list N * list byte :=
  match bs with
  | [] => ([], [])
  | b0 :: r0 =>
      let n0 := Byte.to_N b0 in
      if (n0 <? 128)%N then push n0 (utf8_prefix r0)
      else if ((194 <=? n0) && (n0 <=? 223))%N then
        match r0 with
        | b1 :: r1 =>
            let n1 := Byte.to_N b1 in
            if cont n1
            then push (N.lor (N.shiftl (N.land n0 31) 6) (cbits n1)) (utf8_prefix r1)
            else ([], bs)
        | _ => ([], bs)
        end
      else if ((224 <=? n0) && (n0 <=? 239))%N then
        match r0 with
        | b1 :: b2 :: r2 =>
            let n1 := Byte.to_N b1 in
            let n2 := Byte.to_N b2 in
            let lo := if (n0 =? 224)%N then 160%N else 128%N in
            let hi := if (n0 =? 237)%N then 159%N else 191%N in
            if ((lo <=? n1) && (n1 <=? hi))%N && cont n2
            then push (N.lor (N.shiftl (N.land n0 15) 12)
                         (N.lor (N.shiftl (cbits n1) 6) (cbits n2)))
                   (utf8_prefix r2)
            else ([], bs)
        | _ => ([], bs)
        end
      else if ((240 <=? n0) && (n0 <=? 244))%N then
        match r0 with
        | b1 :: b2 :: b3 :: r3 =>
            let n1 := Byte.to_N b1 in
            let n2 := Byte.to_N b2 in
            let n3 := Byte.to_N b3 in
            let lo := if (n0 =? 240)%N then 144%N else 128%N in
            let hi := if (n0 =? 244)%N then 143%N else 191%N in
            if ((lo <=? n1) && (n1 <=? hi))%N && cont n2 && cont n3
            then push (N.lor (N.shiftl (N.land n0 7) 18)
                         (N.lor (N.shiftl (cbits n1) 12)
                            (N.lor (N.shiftl (cbits n2) 6) (cbits n3))))
                   (utf8_prefix r3)
            else ([], bs)
        | _ => ([], bs)
        end
      else ([], bs)
  end.

(** How many translated characters the newline decoder hands over while more
    input may follow: a [\r] at the very end is held back until the next
    character is known. *)
Definition available (cs : list N) : nat :=
  match last cs with
  | Some c =>
      if (c =? 13)%N then length (universal_newlines cs) - 1
      else length (universal_newlines cs)
  | None => 0
  end.

(** [open(p, 'r', encoding='utf-8').read(n)].  The text layer fetches the
    file chunk by chunk and decodes only what it has fetched, until it holds
    [n] characters or the file ends:
    - a file that decodes to its end gives its first [n] characters;
    - fewer than [n] characters before the first sequence that does not
      decode: the reader has to go through it, and the decoder raises;
    - [n] characters or more before it: the call raises only if the chunks
      fetched take that sequence in.  The [io] module does not fix the sizes
      of its chunks, so this is left to [reads_on], told the content. *)
Definition read (fs : FS) (p : string) (n : nat)
    (reads_on : list byte -> bool) : result (list N) :=
  match Os.read fs p with
  | inl e => inl e
  | inr bs =>
      let d := utf8_prefix bs in
      let text := take n (universal_newlines d.1) in
      match d.2 with
      | [] => inr text
      | _ :: _ =>
          if (n <=? available d.1) && negb (reads_on bs)
          then inr text
          else inl (UnicodeDecodeError "'utf-8' codec can't decode bytes")
      end
  end.

End Text.

(** ** Values decoded from a JSON line *)

Inductive pyval :=
| VNone
| VBool (b : bool)
| VInt (z : Z)
| VFloat (nonzero : bool)
| VStr (s : string)
| VList (l : list pyval)
| VDict (d : list (string * pyval)).

(** Python truth value. *)
Definition truthy (v : pyval) : bool :=
  match v with
  | VNone => false
  | VBool b => b
  | VInt z => negb (z =? 0)%Z
  | VFloat nz => nz
  | VStr s => negb (Str.is_empty s)
  | VList l => match l with [] => false | _ => true end
  | VDict d => match d with [] => false | _ => true end
  end.

Definition type_name (v : pyval) : string :=
  match v with
  | VNone => "NoneType"
  | VBool _ => "bool"
  | VInt _ => "int"
  | VFloat _ => "float"
  | VStr _ => "str"
  | VList _ => "list"
  | VDict _ => "dict"
  end.

(** [d.get(k)]: [None] when the key is absent; of a repeated key of the JSON
    object the last value is kept. *)
Fixpoint dict_get (k : string) (d : list (string * pyval)) : pyval :=
  match d with
  | [] => VNone
  | (k', v) :: d' =>
      if existsb (fun kv => String.eqb kv.1 k) d' then dict_get k d'
      else if String.eqb k' k then v else VNone
  end.

Definition has_key (k : string) (d : list (string * pyval)) : bool :=
  existsb (fun kv => String.eqb kv.1 k) d.

(** [v == s] for a string literal [s]. *)
Definition eq_str (v : pyval) (s : string) : bool :=
  match v with VStr t => String.eqb t s | _ => false end.

(** ** Messages on standard output *)

Inductive message :=
| MState (path : string) (selected : option string) (actions : list string)
| MUploadComplete (filename : string)
| MDownloadData (filename : string) (data : string)
| MDeleteComplete
| MError (msg : string).

(** ** The window: widgets that hold state *)

Inductive icon := FolderIcon | FileIcon.

(** A row of [file_store].  The third column is the text [format_size] renders
    from [st_size] (empty for a directory); the row keeps the byte count it is
    rendered from. *)
Record row := mkRow {
  row_icon : icon;
  row_name : string;
  row_size : option N;
  row_path : string
}.

Inductive widget :=
| Label (text : string)
| TextView (content : list N)
| Image (path : string).

(** [selection] is the tree view's selection, the index of the selected row.
    [file_store.clear()] removes the rows and with them the selection; the
    signals the toolkit may raise on its own while rows go are not modelled:
    [cursor-changed] is raised by the user's gesture ([select_row]). *)
Record App := mkApp {
  current_path : string;
  path_entry : string;
  file_store : list row;
  selection : option nat;
  preview_box : list widget
}.

(** The process and its surroundings: the window, the file system, the icon
    theme (the names it can load), the image decoder, how far the text layer
    reads ahead of the characters it is asked for ([Text.read]), and the two
    output streams. *)
Record World := mkWorld {
  app : App;
  fs : FS;
  theme : list string;
  pixbuf_loadable : list byte -> bool;
  text_reads_on : list byte -> bool;
  stdout : list message;
  stderr : list string
}.

Definition set_app (w : World) (a : App) : World :=
  mkWorld a (fs w) (theme w) (pixbuf_loadable w) (text_reads_on w)
    (stdout w) (stderr w).

Definition set_fs (w : World) (f : FS) : World :=
  mkWorld (app w) f (theme w) (pixbuf_loadable w) (text_reads_on w)
    (stdout w) (stderr w).

Definition set_preview (w : World) (ws : list widget) : World :=
  set_app w (mkApp (current_path (app w)) (path_entry (app w))
               (file_store (app w)) (selection (app w)) ws).

Definition set_selection (w : World) (s : option nat) : World :=
  set_app w (mkApp (current_path (app w)) (path_entry (app w))
               (file_store (app w)) s (preview_box (app w))).

Definition set_path_entry (w : World) (t : string) : World :=
  set_app w (mkApp (current_path (app w)) t
               (file_store (app w)) (selection (app w)) (preview_box (app w))).

(** [print(..., file=sys.stderr)]. *)
Definition eprint (w : World) (line : string) : World :=
  mkWorld (app w) (fs w) (theme w) (pixbuf_loadable w) (text_reads_on w)
    (stdout w) (stderr w ++ [line]).

(** An exception that leaves a callback: the main loop prints the traceback
    and goes on. *)
Definition uncaught (w : World) (e : exn) : World :=
  eprint w ("Traceback (most recent call last): " +:+ str_exn e).

(** [icon_theme.load_icon(name, 24, 0)]. *)
Definition load_icon (w : World) (name : string) (i : icon) : result icon :=
  if bool_decide (name ∈ theme w) then inr i
  else inl (GLibError ("Icon '" +:+ name +:+ "' not present in theme")).

Module Explorer.

(** [send_message]. *)
Definition send_message (w : World) (msg : message) : World :=
  mkWorld (app w) (fs w) (theme w) (pixbuf_loadable w) (text_reads_on w)
    (stdout w ++ [msg]) (stderr w).

(** [get_selected_file]. *)
Definition get_selected_file (w : World) : option string :=
  match selection (app w) with
  | Some i => row_path <$> file_store (app w) !! i
  | None => None
  end.

(** The truth value of an optional string, and the string itself. *)
Definition sel_truthy (selected : option string) : bool :=
  match selected with
  | Some s => negb (Str.is_empty s)
  | None => false
  end.

Definition sel_path (selected : option string) : string :=
  match selected with Some s => s | None => "" end.

(** [get_available_actions]. *)
Definition get_available_actions (f : FS) (selected : option string) : list string :=
  let actions := ["upload"] in
  if sel_truthy selected && Os.isfile f (sel_path selected)
  then actions ++ ["download"; "delete"]
  else if sel_truthy selected && Os.isdir f (sel_path selected)
  then actions ++ ["delete"]
  else actions.

(** [send_state]. *)
Definition send_state (w : World) : World :=
  let selected := get_selected_file w in
  send_message w
    (MState (current_path (app w)) selected
       (get_available_actions (fs w) selected)).

(** The body of the loop over the sorted names in [load_directory]: hidden
    names are skipped, and so is a name whose [stat] raises. *)
Definition row_of (f : FS) (path entry : string) : option row :=
  if Str.startswith Str.dot entry then None
  else
    let full_path := Path.join path entry in
    match Os.stat f full_path with
    | inr st_size =>
        let is_dir := Os.isdir f full_path in
        Some (mkRow (if is_dir then FolderIcon else FileIcon) entry
                (if is_dir then None else Some st_size) full_path)
    | inl _ => None
    end.

Definition append_rows (f : FS) (path : string)
    (store : list row) (entries : list string) : list row :=
  foldl (fun st entry =>
           match row_of f path entry with
           | Some r => st ++ [r]
           | None => st
           end) store entries.

(** [load_directory]. *)
Definition load_directory (w : World) (path : string) : World :=
  if negb (Os.isdir (fs w) path) then w
  else
    let w1 := set_app w (mkApp path path [] None (preview_box (app w))) in
    let failed e := eprint w1 ("Error loading directory: " +:+ str_exn e) in
    match Os.listdir (fs w) path with
    | inl e => failed e
    | inr entries =>
        let entries := merge_sort String.le entries in
        match load_icon w "folder" FolderIcon with
        | inl e => failed e
        | inr _ =>
            match load_icon w "text-x-generic" FileIcon with
            | inl e => failed e
            | inr _ =>
                set_app w
                  (mkApp path path (append_rows (fs w) path [] entries) None
                     (preview_box (app w)))
            end
        end
    end.

(** [preview_text]. *)
Definition preview_text (w : World) (file_path : string) : World :=
  match Text.read (fs w) file_path 10000 (text_reads_on w) with
  | inr content => set_preview w (preview_box (app w) ++ [TextView content])
  | inl e =>
      set_preview w
        (preview_box (app w) ++ [Label ("Error loading text: " +:+ str_exn e)])
  end.

(** [preview_image]; the scaling of the picture is display only. *)
Definition preview_image (w : World) (file_path : string) : World :=
  match Os.read (fs w) file_path with
  | inr bs =>
      if pixbuf_loadable w bs
      then set_preview w (preview_box (app w) ++ [Image file_path])
      else set_preview w
             (preview_box (app w)
              ++ [Label "Error loading image: Couldn't recognize the image file format"])
  | inl e =>
      set_preview w
        (preview_box (app w) ++ [Label ("Error loading image: " +:+ str_exn e)])
  end.

Definition image_exts : list string := [".jpg"; ".jpeg"; ".png"; ".gif"; ".bmp"].
Definition text_exts : list string :=
  [".txt"; ".md"; ".py"; ".rs"; ".js"; ".json"; ".xml"; ".html"].

(** [preview_file]. *)
Definition preview_file (w : World) (file_path : string) : World :=
  let w := set_preview w [] in
  let ext := Str.lower (Path.splitext_ext file_path) in
  if bool_decide (ext ∈ image_exts) then preview_image w file_path
  else if bool_decide (ext ∈ text_exts) then preview_text w file_path
  else set_preview w
         (preview_box (app w) ++ [Label ("Preview not available for " +:+ ext +:+ " files")]).

(** [base64.b64decode(data)] for whatever the command carries. *)
Definition b64decode_val (data : pyval) : result (list byte) :=
  match data with
  | VStr s => Base64.b64decode s
  | v => inl (TypeError ("argument should be a bytes-like object or ASCII string, not '"
                         +:+ type_name v +:+ "'"))
  end.

(** [handle_upload]. *)
Definition handle_upload (w : World) (command : list (string * pyval)) : World :=
  let filename := dict_get "filename" command in
  let data := dict_get "data" command in
  if truthy filename && truthy data then
    match filename with
    | VStr name =>
        let filepath := Path.join (current_path (app w)) name in
        match Os.open_wb (fs w) filepath with
        | inl e => send_message w (MError (str_exn e))
        | inr (f1, k) =>
            match b64decode_val data with
            | inl e => send_message (set_fs w f1) (MError (str_exn e))
            | inr bytes =>
                let w2 := set_fs w (Os.write f1 k bytes) in
                let w3 := load_directory w2 (current_path (app w2)) in
                send_message w3 (MUploadComplete name)
            end
        end
    | v =>
        uncaught w
          (TypeError ("join() argument must be str, bytes, or os.PathLike object, not '"
                      +:+ type_name v +:+ "'"))
    end
  else w.

(** [handle_download_request]. *)
Definition handle_download_request (w : World) : World :=
  let selected := get_selected_file w in
  if sel_truthy selected && Os.isfile (fs w) (sel_path selected) then
    match Os.read (fs w) (sel_path selected) with
    | inr bs =>
        send_message w
          (MDownloadData (Path.basename (sel_path selected)) (Base64.b64encode bs))
    | inl e => send_message w (MError (str_exn e))
    end
  else w.

(** [handle_delete]. *)
Definition handle_delete (w : World) : World :=
  let selected := get_selected_file w in
  if sel_truthy selected then
    let removed :=
      if Os.isfile (fs w) (sel_path selected) then Os.remove (fs w) (sel_path selected)
      else if Os.isdir (fs w) (sel_path selected) then Os.rmdir (fs w) (sel_path selected)
      else inr (fs w) in
    match removed with
    | inr f' =>
        let w1 := set_fs w f' in
        send_message (load_directory w1 (current_path (app w1))) MDeleteComplete
    | inl e => send_message w (MError (str_exn e))
    end
  else w.

(** [handle_command]. *)
Definition handle_command (w : World) (command : pyval) : World :=
  match command with
  | VDict d =>
      let cmd_type := dict_get "type" d in
      if eq_str cmd_type "upload" then handle_upload w d
      else if eq_str cmd_type "download_request" then handle_download_request w
      else if eq_str cmd_type "delete" then handle_delete w
      else w
  | v =>
      uncaught w
        (AttributeError ("'" +:+ type_name v +:+ "' object has no attribute 'get'"))
  end.

(** [on_path_changed], after the text [new_path] was typed into the entry. *)
Definition on_path_changed (w : World) (new_path : string) : World :=
  let w := set_path_entry w new_path in
  if Os.isdir (fs w) new_path then send_state (load_directory w new_path)
  else w.

(** [on_up_clicked]. *)
Definition on_up_clicked (w : World) : World :=
  let parent := Path.dirname (current_path (app w)) in
  if bool_decide (parent ≠ current_path (app w))
  then send_state (load_directory w parent)
  else w.

(** [on_file_activated] on row [i]. *)
Definition on_file_activated (w : World) (i : nat) : World :=
  match file_store (app w) !! i with
  | Some r =>
      let file_path := row_path r in
      if Os.isdir (fs w) file_path then send_state (load_directory w file_path)
      else preview_file w file_path
  | None => w
  end.

(** [on_selection_changed]. *)
Definition on_selection_changed (w : World) : World :=
  let selected := get_selected_file w in
  let w :=
    if sel_truthy selected && Os.isfile (fs w) (sel_path selected)
    then preview_file w (sel_path selected)
    else w in
  send_state w.

(** The user puts the cursor on row [i]: the selection moves there and the
    view signals [cursor-changed]. *)
Definition select_row (w : World) (i : nat) : World :=
  if bool_decide (i < length (file_store (app w)))
  then on_selection_changed (set_selection w (Some i))
  else w.

(** [__init__]: the window as [build_ui] leaves it, the first load, the first
    state message.  [home] is [os.path.expanduser("~")]. *)
Definition init (home : string) (f : FS) (th : list string)
    (loadable reads_on : list byte -> bool) : World :=
  let w := mkWorld (mkApp home home [] None [Label "Select a file to preview"])
             f th loadable reads_on [] [] in
  send_state (load_directory w home).

(** What can happen to a running explorer. *)
Inductive event :=
| Command (c : pyval)
| PathEntered (text : string)
| UpClicked
| RowActivated (i : nat)
| RowSelected (i : nat)
| Outside (f : FS).

Definition step (w : World) (ev : event) : World :=
  match ev with
  | Command c => handle_command w c
  | PathEntered t => on_path_changed w t
  | UpClicked => on_up_clicked w
  | RowActivated i => on_file_activated w i
  | RowSelected i => select_row w i
  | Outside f => set_fs w f
  end.

Inductive reachable : World -> Prop :=
| reach_init home f th loadable reads_on :
    reachable (init home f th loadable reads_on)
| reach_step w ev : reachable w -> reachable (step w ev).

End Explorer.

(** ** Finite checks over bytes

    Facts about one or two bytes are settled by running a boolean test on
    every byte. *)

Definition all_bytes : list byte := Base64.byte_of <$> (N.of_nat <$> seq 0 256).

Definition check1 (P : byte -> bool) : bool := forallb P all_bytes.

Definition check2 (P : byte -> byte -> bool) : bool :=
  forallb (fun a => forallb (P a) all_bytes) all_bytes.

Module B64Facts.

Definition s2 (x y : N) : N := N.lor (N.shiftl (N.land x 3) 4) (N.shiftr y 4).
Definition s3 (y z : N) : N := N.lor (N.shiftl (N.land y 15) 2) (N.shiftr z 6).

(** An encoded sextet reads back as itself and is not the pad. *)
Definition good (n : N) : bool :=
  negb (Ascii.eqb (Base64.b2a n) Base64.pad)
  && match Base64.a2b (Base64.b2a n) with
     | Some v => (v =? n)%N
     | None => false
     end
  && Base64.is_ascii (Base64.b2a n).

Definition one_byte (a : byte) : bool :=
  let x := Byte.to_N a in
  good (N.shiftr x 2) && good (N.land x 63)
  && good (N.shiftl (N.land x 3) 4) && good (N.shiftl (N.land x 15) 2)
  && Byte.eqb (Base64.byte_of
       (N.lor (N.shiftl (N.shiftr x 2) 2) (N.shiftr (N.shiftl (N.land x 3) 4) 4))) a
  && Byte.eqb (Base64.byte_of
       (N.lor (N.shiftl (N.shiftr x 4) 4) (N.shiftr (N.shiftl (N.land x 15) 2) 2))) a
  && Byte.eqb (Base64.byte_of
       (N.lor (N.shiftl (N.shiftr x 4) 4) (N.land x 15))) a
  && Byte.eqb (Base64.byte_of
       (N.lor (N.shiftl (N.shiftr x 6) 6) (N.land x 63))) a.

Definition two_bytes (a b : byte) : bool :=
  let x := Byte.to_N a in
  let y := Byte.to_N b in
  good (s2 x y) && good (s3 x y)
  && Byte.eqb (Base64.byte_of
       (N.lor (N.shiftl (N.shiftr x 2) 2) (N.shiftr (s2 x y) 4))) a
  && (N.land (s2 x y) 15 =? N.shiftr y 4)%N
  && (N.shiftr (s3 x y) 2 =? N.land x 15)%N
  && (N.land (s3 x y) 3 =? N.shiftr y 6)%N.

End B64Facts.

(** ** Vocabulary of the statements *)

(** A name a directory lists and shows: not empty, one component, no NUL,
    not hidden. *)
Definition visible_name (n : string) : bool :=
  negb (Str.is_empty n) && negb (Str.contains Str.slash n)
  && negb (Str.contains Os.nul n) && negb (Str.startswith Str.dot n).

(** The path names a directory that has at least one child. *)
Definition nonempty_dir (f : FS) (p : string) : bool :=
  match Os.namei f p with
  | Some k =>
      Os.is_dir_key (nodes f) k
      && match Os.children (nodes f) k with [] => false | _ => true end
  | None => false
  end.

(** What [get_available_actions] reads of a selection. *)
Inductive sel_kind := NoSelection | FileSelected | DirSelected | StaleSelected.

Definition sel_kind_of (f : FS) (selected : option string) : sel_kind :=
  if Explorer.sel_truthy selected then
    if Os.isfile f (Explorer.sel_path selected) then FileSelected
    else if Os.isdir f (Explorer.sel_path selected) then DirSelected
    else StaleSelected
  else NoSelection.

(** The state message of a world. *)
Definition state_of (w : World) : message :=
  MState (current_path (app w)) (Explorer.get_selected_file w)
    (Explorer.get_available_actions (fs w) (Explorer.get_selected_file w)).

(** The messages [w'] has emitted since [w]. *)
Definition emitted (w w' : World) : list message :=
  drop (length (stdout w)) (stdout w').

(** The three commands as [json.loads] delivers them. *)
Definition upload_command (name data : string) : pyval :=
  VDict [("type", VStr "upload"); ("filename", VStr name); ("data", VStr data)].

Definition download_request_command : pyval :=
  VDict [("type", VStr "download_request")].

Definition delete_command : pyval := VDict [("type", VStr "delete")].

(** The file system after [data] was written to the file at key [k]. *)
Definition with_file (f : FS) (k : list string) (data : list byte) : FS :=
  mkFS (<[k := File true true data]> (nodes f)) (cwd f).

(** The model the platform sees: path, listing and selection. *)
Definition keeps_model (w w' : World) : Prop :=
  current_path (app w') = current_path (app w)
  /\ file_store (app w') = file_store (app w)
  /\ selection (app w') = selection (app w).

(** Every row is a child of the current directory, and the selection points
    at a row. *)
Definition well_formed (w : World) : Prop :=
  (forall r, r ∈ file_store (app w) ->
     row_path r = Path.join (current_path (app w)) (row_name r))
  /\ (forall i, selection (app w) = Some i -> i < length (file_store (app w))).

(** ** A small world to run the handlers in

    [/tmp/x] holds [a.txt] (5 bytes), the directory [b] with one file, a hidden
    file, a broken link [Z] and the unreadable directory [locked]. *)

Module Sample.

Definition hello : list byte := [x68; x65; x6c; x6c; x6f].

Definition tree : gmap (list string) node :=
  list_to_map
    [ ([], Dir true true);
      (["tmp"], Dir true true);
      (["tmp"; "x"], Dir true true);
      (["tmp"; "x"; "a.txt"], File true true hello);
      (["tmp"; "x"; "b"], Dir true true);
      (["tmp"; "x"; "b"; "c"], File true true []);
      (["tmp"; "x"; ".hid"], File true true []);
      (["tmp"; "x"; "Z"], Broken);
      (["tmp"; "x"; "locked"], Dir false true) ].

Definition disk : FS := mkFS tree [].

Definition icons : list string := ["folder"; "text-x-generic"].

Definition no_images (_ : list byte) : bool := false.

(** A text layer that fetches no more than it is asked for. *)
Definition frugal (_ : list byte) : bool := false.

(** One that always has the rest of its chunk in hand. *)
Definition greedy (_ : list byte) : bool := true.

(** The explorer started in [/tmp/x]. *)
Definition w0 : World := Explorer.init "/tmp/x" disk icons no_images frugal.

(** A text file of [n] letters [a] at [/d/a.txt]. *)
Definition letters (n : nat) : list byte := repeat x61 n.

(** [n] times the two bytes of U+00E9. *)
Definition accents (n : nat) : list byte := concat (repeat [xc3; xa9] n).

Definition text_disk (n : nat) : FS :=
  mkFS (list_to_map
          [ ([], Dir true true); (["d"], Dir true true);
            (["d"; "a.txt"], File true true (letters n)) ]) [].


Definition accents_world (n : nat) : World :=
  mkWorld (mkApp "/d" "/d" [] None [])
    (mkFS (list_to_map
             [ ([], Dir true true); (["d"], Dir true true);
               (["d"; "a.txt"], File true true (accents n)) ]) [])
    icons no_images frugal [] [].

(** The same disk after another process removed [a.txt]. *)
Definition disk_without_a : FS := mkFS (delete ["tmp"; "x"; "a.txt"] tree) [].

End Sample.

(** ** The size column

    [format_size] divides by 1024 in floating point and prints one decimal.
    For a size below 2^53 every such division is exact, so the value printed
    is the exact quotient [size / 1024^k], rounded to tenths, ties to even
    (what [f"{x:.1f}"] does with an exactly represented value); the functions
    below compute with that quotient as [num / den]. *)

(** Decimal digits of a number. *)
Definition dec (n : N) : string := NilEmpty.string_of_uint (N.to_uint n).

(** [num / den] in tenths, rounded half to even. *)
Definition tenths (num den : N) : N :=
  let q := (num * 10 / den)%N in
  let r := (num * 10 mod den)%N in
  if (den <? 2 * r)%N || ((2 * r =? den)%N && N.odd q) then (q + 1)%N else q.

(** [f"{x:.1f}"] for [x = num / den]. *)
Definition fmt1 (num den : N) : string :=
  let t := tenths num den in
  dec (t / 10) +:+ "." +:+ dec (t mod 10).

(** The loop of [format_size] over the units left, [size / den] being the
    value of the Python variable [size]. *)
Fixpoint format_size_loop (units : list string) (size den : N) : string :=
  match units with
  | [] => fmt1 size den +:+ " TB"
  | unit :: rest =>
      if (size <? 1024 * den)%N then fmt1 size den +:+ " " +:+ unit
      else format_size_loop rest size (1024 * den)
  end.

(** [format_size]. *)
Definition format_size (size : N) : string :=
  format_size_loop ["B"; "KB"; "MB"; "GB"] size 1.

(** The text of the size column of a row. *)
Definition size_text (r : row) : string :=
  match row_size r with
  | Some n => format_size n
  | None => ""
  end.

(** A command [handle_command] has a branch for. *)
Definition recognised (c : pyval) : bool :=
  match c with
  | VDict d =>
      eq_str (dict_get "type" d) "upload"
      || eq_str (dict_get "type" d) "download_request"
      || eq_str (dict_get "type" d) "delete"
  | _ => false
  end.

(** The listing is in order: names sorted, no name twice, none hidden. *)
Definition listing_ok (w : World) : Prop :=
  StronglySorted String.le (row_name <$> file_store (app w))
  /\ NoDup (row_name <$> file_store (app w))
  /\ Forall (fun n => Str.startswith Str.dot n = false)
       (row_name <$> file_store (app w)).

(** A state message offers [upload] always, [delete] and [download] only
    with a selection, and [download] never without [delete]. *)
Definition sound_message (m : message) : Prop :=
  match m with
  | MState _ sel acts =>
      acts = ["upload"]
      \/ (sel <> None
          /\ (acts = ["upload"; "download"; "delete"] \/ acts = ["upload"; "delete"]))
  | _ => True
  end.

(** * Properties *)

(** ** The embedded functions on the inputs of the specification *)

Example join_examples :
  Path.join "/tmp/x" "a.txt" = "/tmp/x/a.txt" /\ Path.join "/" "a" = "/a"
  /\ Path.join "/tmp/x/" "a" = "/tmp/x/a"
  /\ Path.join "/tmp/x" "/etc/passwd" = "/etc/passwd".
Proof. repeat split. Qed.

Example dirname_examples :
  Path.dirname "/tmp/x" = "/tmp" /\ Path.dirname "/tmp" = "/"
  /\ Path.dirname "/" = "/" /\ Path.dirname "a" = ""
  /\ Path.dirname "/a//b" = "/a".
Proof. repeat split. Qed.

Example splitext_examples :
  Path.splitext_ext "/a.b/c" = "" /\ Path.splitext_ext "/a/.bashrc" = ""
  /\ Path.splitext_ext "/a/x.tar.GZ" = ".GZ"
  /\ Path.splitext_ext "/a/..x.txt" = ".txt"
  /\ Path.splitext_ext "x." = "." /\ Path.splitext_ext "..." = "".
Proof. repeat split. Qed.

Example b64_examples :
  Base64.b64encode [x68; x69] = "aGk="
  /\ Base64.b64decode "aGk=" = inr [x68; x69]
  /\ Base64.b64decode "aGk" = inl (BinasciiError "Incorrect padding")
  /\ Base64.b64decode "" = inr [].
Proof. repeat split. Qed.

Example utf8_examples :
  Text.utf8_decode [xc3; xa9; x41; xe2; x82; xac] = Some [233; 65; 8364]%N
  /\ Text.utf8_decode [xc0; x80] = None
  /\ Text.utf8_decode [xed; xa0; x80] = None
  /\ Text.universal_newlines [13; 10; 13; 65; 13]%N = [10; 10; 65; 10]%N.
Proof. repeat split. Qed.

(** The scenario of the specification: [/tmp/x] with [a.txt] (5 bytes) and the
    directory [b]. *)
Example scenario_actions :
  stdout Sample.w0 = [MState "/tmp/x" None ["upload"]]
  /\ emitted Sample.w0 (Explorer.select_row Sample.w0 0)
     = [MState "/tmp/x" (Some "/tmp/x/a.txt") ["upload"; "download"; "delete"]]
  /\ emitted Sample.w0 (Explorer.select_row Sample.w0 1)
     = [MState "/tmp/x" (Some "/tmp/x/b") ["upload"; "delete"]].
Proof. vm_compute. repeat split. Qed.

Example scenario_upload :
  let w1 := Explorer.handle_command Sample.w0 (upload_command "n.txt" "aGk=") in
  emitted Sample.w0 w1 = [MUploadComplete "n.txt"]
  /\ Os.read (fs w1) "/tmp/x/n.txt" = inr [x68; x69]
  /\ row_name <$> file_store (app w1) = ["a.txt"; "b"; "locked"; "n.txt"].
Proof. vm_compute. repeat split. Qed.

Lemma all_bytes_complete (b : byte) : In b all_bytes.
Proof.
  assert (H : existsb (Byte.eqb b) all_bytes = true)
    by (destruct b; vm_compute; reflexivity).
  apply existsb_exists in H as (x & Hin & Heq).
  apply Byte.byte_dec_bl in Heq. by subst.
Qed.

Lemma check1_spec (P : byte -> bool) : check1 P = true -> forall a, P a = true.
Proof.
  unfold check1. rewrite forallb_forall. intros H a.
  apply H, all_bytes_complete.
Qed.

Lemma check2_spec (P : byte -> byte -> bool) :
  check2 P = true -> forall a b, P a b = true.
Proof.
  unfold check2. rewrite forallb_forall. intros H a b.
  specialize (H a (all_bytes_complete a)). rewrite forallb_forall in H.
  apply H, all_bytes_complete.
Qed.

Lemma one_byte_ok (a : byte) : B64Facts.one_byte a = true.
Proof. revert a. apply check1_spec. vm_compute. reflexivity. Qed.

Lemma two_bytes_ok (a b : byte) : B64Facts.two_bytes a b = true.
Proof. revert a b. apply check2_spec. vm_compute. reflexivity. Qed.

(** ** Base64: decoding undoes encoding *)

Section Base64RoundTrip.

Import Base64 B64Facts.

Lemma good_spec (n : N) :
  good n = true ->
  Ascii.eqb (b2a n) pad = false /\ a2b (b2a n) = Some n /\ is_ascii (b2a n) = true.
Proof.
  unfold good. rewrite !andb_true_iff, negb_true_iff.
  intros [[Hp Ha] Hi]. repeat split; try done.
  destruct (a2b (b2a n)) as [v|]; [|done].
  apply N.eqb_eq in Ha. by subst.
Qed.

(** Reading one encoded sextet advances the quad by one position. *)
Lemma a2b_loop_sextet (n : N) (cs : list ascii) (st : dstate) :
  good n = true ->
  a2b_loop (b2a n :: cs) st =
    match quad_pos st with
    | 0 => a2b_loop cs (mkD 1 n 0 (out st))
    | 1 => a2b_loop cs (mkD 2 (N.land n 15) 0
             (out st ++ [byte_of (N.lor (N.shiftl (leftchar st) 2) (N.shiftr n 4))]))
    | 2 => a2b_loop cs (mkD 3 (N.land n 3) 0
             (out st ++ [byte_of (N.lor (N.shiftl (leftchar st) 4) (N.shiftr n 2))]))
    | _ => a2b_loop cs (mkD 0 0 0
             (out st ++ [byte_of (N.lor (N.shiftl (leftchar st) 6) n)]))
    end.
Proof.
  intros (Hp & Ha & _)%good_spec.
  cbn [a2b_loop]. by rewrite Hp, Ha.
Qed.

Lemma byte_facts (a : byte) :
  let x := Byte.to_N a in
  good (N.shiftr x 2) = true /\ good (N.land x 63) = true
  /\ good (N.shiftl (N.land x 3) 4) = true /\ good (N.shiftl (N.land x 15) 2) = true
  /\ byte_of (N.lor (N.shiftl (N.shiftr x 2) 2) (N.shiftr (N.shiftl (N.land x 3) 4) 4)) = a
  /\ byte_of (N.lor (N.shiftl (N.shiftr x 4) 4) (N.shiftr (N.shiftl (N.land x 15) 2) 2)) = a
  /\ byte_of (N.lor (N.shiftl (N.shiftr x 4) 4) (N.land x 15)) = a
  /\ byte_of (N.lor (N.shiftl (N.shiftr x 6) 6) (N.land x 63)) = a.
Proof.
  pose proof (one_byte_ok a) as H. unfold one_byte in H.
  rewrite !andb_true_iff in H.
  destruct H as [[[[[[[H1 H2] H3] H4] H5] H6] H7] H8].
  repeat split; try done; by apply Byte.byte_dec_bl.
Qed.

Lemma pair_facts (a b : byte) :
  let x := Byte.to_N a in
  let y := Byte.to_N b in
  good (s2 x y) = true /\ good (s3 x y) = true
  /\ byte_of (N.lor (N.shiftl (N.shiftr x 2) 2) (N.shiftr (s2 x y) 4)) = a
  /\ N.land (s2 x y) 15 = N.shiftr y 4
  /\ N.shiftr (s3 x y) 2 = N.land x 15
  /\ N.land (s3 x y) 3 = N.shiftr y 6.
Proof.
  pose proof (two_bytes_ok a b) as H. unfold two_bytes in H.
  rewrite !andb_true_iff in H.
  destruct H as [[[[[H1 H2] H3] H4] H5] H6].
  repeat split; try done; try (by apply Byte.byte_dec_bl); by apply N.eqb_eq.
Qed.

(** Lists three elements at a time. *)
Lemma list_ind3 {A} (P : list A -> Prop) :
  P [] -> (forall a, P [a]) -> (forall a b, P [a; b]) ->
  (forall a b c l, P l -> P (a :: b :: c :: l)) ->
  forall l, P l.
Proof.
  intros H0 H1 H2 H3 l.
  cut (P l /\ (forall a, P (a :: l)) /\ (forall a b, P (a :: b :: l))); [tauto|].
  induction l as [|x l (IH0 & IH1 & IH2)]; [by auto|].
  repeat split; auto.
Qed.

Lemma a2b_loop_encode (bs acc : list byte) :
  a2b_loop (encode_chars bs) (mkD 0 0 0 acc) = inr (acc ++ bs).
Proof.
  revert acc. induction bs as [|a|a b|a b c l IH] using list_ind3; intros acc.
  - cbn. by rewrite app_nil_r.
  - destruct (byte_facts a) as (G1 & _ & G3 & _ & B1 & _).
    cbn [encode_chars].
    rewrite (a2b_loop_sextet _ _ _ G1). cbn [quad_pos out leftchar].
    rewrite (a2b_loop_sextet _ _ _ G3). cbn [quad_pos out leftchar].
    rewrite B1. reflexivity.
  - destruct (byte_facts a) as (G1 & _).
    destruct (byte_facts b) as (_ & _ & _ & G4 & _ & B2 & _).
    destruct (pair_facts a b) as (G2 & _ & B1 & E1 & _).
    cbn [encode_chars]. fold (s2 (Byte.to_N a) (Byte.to_N b)).
    rewrite (a2b_loop_sextet _ _ _ G1). cbn [quad_pos out leftchar].
    rewrite (a2b_loop_sextet _ _ _ G2). cbn [quad_pos out leftchar].
    rewrite (a2b_loop_sextet _ _ _ G4). cbn [quad_pos out leftchar].
    rewrite B1, E1, B2. cbn. by rewrite <- app_assoc.
  - destruct (byte_facts a) as (G1 & _).
    destruct (byte_facts b) as (_ & _ & _ & _ & _ & _ & B2 & _).
    destruct (byte_facts c) as (_ & G4 & _ & _ & _ & _ & _ & B3).
    destruct (pair_facts a b) as (G2 & _ & B1 & E1 & _).
    destruct (pair_facts b c) as (_ & G3 & _ & _ & E2 & E3).
    cbn [encode_chars].
    fold (s2 (Byte.to_N a) (Byte.to_N b)). fold (s3 (Byte.to_N b) (Byte.to_N c)).
    rewrite (a2b_loop_sextet _ _ _ G1). cbn [quad_pos out leftchar].
    rewrite (a2b_loop_sextet _ _ _ G2). cbn [quad_pos out leftchar].
    rewrite (a2b_loop_sextet _ _ _ G3). cbn [quad_pos out leftchar].
    rewrite (a2b_loop_sextet _ _ _ G4). cbn [quad_pos out leftchar].
    rewrite B1, E1, E2, B2, E3, B3, IH.
    by rewrite <- !app_assoc.
Qed.

Lemma encode_chars_ascii (bs : list byte) :
  forallb is_ascii (encode_chars bs) = true.
Proof.
  induction bs as [|a|a b|a b c l IH] using list_ind3.
  - done.
  - destruct (byte_facts a) as ((_ & _ & G1)%good_spec & _ & (_ & _ & G3)%good_spec & _).
    cbn [encode_chars forallb]. by rewrite G1, G3.
  - destruct (byte_facts a) as ((_ & _ & G1)%good_spec & _).
    destruct (byte_facts b) as (_ & _ & _ & (_ & _ & G4)%good_spec & _).
    destruct (pair_facts a b) as ((_ & _ & G2)%good_spec & _).
    cbn [encode_chars forallb]. fold (s2 (Byte.to_N a) (Byte.to_N b)).
    by rewrite G1, G2, G4.
  - destruct (byte_facts a) as ((_ & _ & G1)%good_spec & _).
    destruct (byte_facts c) as (_ & (_ & _ & G4)%good_spec & _).
    destruct (pair_facts a b) as ((_ & _ & G2)%good_spec & _).
    destruct (pair_facts b c) as (_ & (_ & _ & G3)%good_spec & _).
    cbn [encode_chars forallb].
    fold (s2 (Byte.to_N a) (Byte.to_N b)). fold (s3 (Byte.to_N b) (Byte.to_N c)).
    by rewrite G1, G2, G3, G4, IH.
Qed.

Lemma b64decode_b64encode (bs : list byte) : b64decode (b64encode bs) = inr bs.
Proof.
  unfold b64decode, b64encode.
  rewrite list_ascii_of_string_of_list_ascii, encode_chars_ascii.
  apply (a2b_loop_encode bs []).
Qed.

Lemma b64encode_nonempty (bs : list byte) :
  bs <> [] -> Str.is_empty (b64encode bs) = false.
Proof.
  unfold b64encode.
  destruct bs as [|a [|b [|c l]]]; [done|by intros _..].
Qed.

End Base64RoundTrip.

(** ** Strings and paths *)

Section StrFacts.

Import Str.

Lemma append_nil (s : string) : "" +:+ s = s.
Proof. reflexivity. Qed.

Lemma append_cons (x : ascii) (a b : string) :
  String x a +:+ b = String x (a +:+ b).
Proof. reflexivity. Qed.

Lemma split_nonnil (c : ascii) (s : string) : split c s <> [].
Proof.
  destruct s as [|a s]; cbn [split]; [done|].
  destruct (Ascii.eqb a c); [done|]. by destruct (split c s).
Qed.

Lemma split_app (c : ascii) (a b : string) :
  split c (a +:+ String c b) = (split c a ++ split c b)%list.
Proof.
  induction a as [|x a IH]; rewrite ?append_nil, ?append_cons; cbn [split].
  - by rewrite Ascii.eqb_refl.
  - rewrite IH. destruct (Ascii.eqb x c); [done|].
    pose proof (split_nonnil c a). by destruct (split c a).
Qed.

Lemma split_none (c : ascii) (n : string) :
  contains c n = false -> split c n = [n].
Proof.
  induction n as [|x n IH]; cbn [split contains]; [done|].
  intros [Hx Hn]%orb_false_iff. by rewrite Hx, IH.
Qed.

Lemma endswith_inv (c : ascii) (s : string) :
  endswith c s = true -> exists a, s = a +:+ String c "".
Proof.
  induction s as [|x s IH]; [done|].
  destruct s as [|y s].
  - cbn [endswith]. intros ->%Ascii.eqb_eq. by exists "".
  - intros H. destruct (IH H) as [a ->]. by exists (String x a).
Qed.

Lemma append_snoc (a : string) (c : ascii) (n : string) :
  (a +:+ String c "") +:+ n = a +:+ String c n.
Proof.
  induction a as [|x a IH]; [done|]. by rewrite !append_cons, IH.
Qed.

Lemma contains_app (c : ascii) (a b : string) :
  contains c (a +:+ b) = contains c a || contains c b.
Proof.
  induction a as [|x a IH]; rewrite ?append_nil, ?append_cons; [done|].
  cbn [contains]. by rewrite IH, orb_assoc.
Qed.

Lemma is_empty_app (a b : string) :
  is_empty a = false -> is_empty (a +:+ b) = false.
Proof. by destruct a. Qed.

Lemma startswith_app (c : ascii) (a b : string) :
  is_empty a = false -> startswith c (a +:+ b) = startswith c a.
Proof. by destruct a. Qed.

Lemma startswith_contains (c : ascii) (s : string) :
  contains c s = false -> startswith c s = false.
Proof.
  destruct s; cbn [contains startswith]; [done|]. by intros [? ?]%orb_false_iff.
Qed.

Lemma after_last_none (c : ascii) (n : string) :
  contains c n = false -> after_last c n = n.
Proof. destruct n as [|x n]; [done|]. cbn [after_last]. by intros ->. Qed.

Lemma after_last_app (c : ascii) (a n : string) :
  contains c n = false -> after_last c (a +:+ String c n) = n.
Proof.
  intros Hn. induction a as [|x a IH].
  - rewrite append_nil. cbn [after_last contains]. rewrite Ascii.eqb_refl.
    by apply after_last_none.
  - rewrite append_cons. cbn [after_last].
    replace (contains c (String x (a +:+ String c n))) with true; [done|].
    cbn [contains]. rewrite contains_app. cbn [contains].
    rewrite Ascii.eqb_refl. cbn [orb]. by rewrite !orb_true_r.
Qed.

(** The two shapes of [join] for a name without a slash. *)
Lemma join_shape (cur n : string) :
  is_empty cur = false -> contains slash n = false ->
  exists a, Path.join cur n = a +:+ String slash n
    /\ (cur = a \/ cur = a +:+ String slash "").
Proof.
  intros Hc Hn. unfold Path.join.
  rewrite (startswith_contains _ _ Hn), Hc. cbn [orb].
  destruct (endswith slash cur) eqn:He.
  - apply endswith_inv in He as [a ->]. exists a.
    split; [apply append_snoc | by right].
  - exists cur. split; [done | by left].
Qed.

Lemma basename_join (cur n : string) :
  is_empty cur = false -> contains slash n = false ->
  Path.basename (Path.join cur n) = n.
Proof.
  intros Hc Hn. destruct (join_shape cur n Hc Hn) as (a & -> & _).
  by apply after_last_app.
Qed.

End StrFacts.

(** ** The file system *)

Section OsFacts.

Import Str Os.

Implicit Types (m : gmap (list string) node) (k key : list string).

Lemma strip_prefix_app k (rest : list string) : strip_prefix k (k ++ rest) = Some rest.
Proof.
  induction k as [|a k IH]; [done|].
  change (strip_prefix (a :: k) ((a :: k) ++ rest))
    with (if decide (a = a) then strip_prefix k (k ++ rest) else None).
  by case_decide.
Qed.

Lemma strip_prefix_Some k key (rest : list string) :
  strip_prefix k key = Some rest -> key = k ++ rest.
Proof.
  revert key. induction k as [|a k IH]; intros [|b key];
    [by intros [= <-]..|done|].
  change (strip_prefix (a :: k) (b :: key))
    with (if decide (a = b) then strip_prefix k key else None).
  case_decide; [|done]. intros ->%IH. by subst.
Qed.

Lemma child_of_Some k key (n : string) :
  child_of k key = Some n <-> key = k ++ [n].
Proof.
  unfold child_of. split.
  - destruct (strip_prefix k key) as [[|x [|y r]]|] eqn:E; try done.
    intros [= ->]. by apply strip_prefix_Some.
  - intros ->. by rewrite strip_prefix_app.
Qed.

(** [listdir] lists exactly the names that have a node under the directory. *)
Lemma elem_of_children m k (n : string) :
  n ∈ children m k <-> is_Some (m !! (k ++ [n])).
Proof.
  unfold children. rewrite list_elem_of_omap. split.
  - intros ([key v] & Hin & Hc). apply elem_of_map_to_list in Hin.
    apply child_of_Some in Hc. cbn in Hc. subst. eauto.
  - intros [v Hv]. exists (k ++ [n], v). split.
    + by apply elem_of_map_to_list.
    + by apply child_of_Some.
Qed.

Lemma namei_Some_inv (f : FS) (p : string) k :
  namei f p = Some k -> is_empty p = false /\ contains nul p = false.
Proof.
  unfold namei. destruct (is_empty p), (contains nul p); by cbn.
Qed.

Lemma resolve_Some (f : FS) (p : string) k :
  namei f p = Some k -> resolve f p = inr k.
Proof.
  intros H. unfold resolve. destruct (namei_Some_inv _ _ _ H) as [_ ->].
  by rewrite H.
Qed.

Lemma isdir_nonempty (f : FS) (p : string) : isdir f p = true -> is_empty p = false.
Proof.
  unfold isdir. destruct (namei f p) as [k|] eqn:E; [|done].
  intros _. by apply namei_Some_inv in E as [? _].
Qed.

Lemma walk_step_name m k (n : string) :
  is_dir_key m k = true -> n <> "" -> n <> "." -> n <> ".." ->
  walk_step m (Some k) n = Some (k ++ [n]).
Proof.
  intros Hd H1 H2 H3. unfold walk_step. rewrite Hd.
  rewrite decide_False by tauto. by rewrite decide_False.
Qed.

Lemma walk_step_empty m (acc : option (list string)) k :
  walk_step m acc "" = Some k -> acc = Some k.
Proof.
  unfold walk_step. destruct acc as [k'|]; [|done].
  destruct (is_dir_key m k'); [|done].
  rewrite decide_True by auto. congruence.
Qed.

(** Joining a plain name to a directory resolves to the child of that name. *)
Lemma namei_join (f : FS) (cur n : string) k :
  namei f cur = Some k -> is_dir_key (nodes f) k = true ->
  n <> "" -> n <> "." -> n <> ".." ->
  contains slash n = false -> contains nul n = false ->
  namei f (Path.join cur n) = Some (k ++ [n]).
Proof.
  intros Hk Hd H1 H2 H3 Hs Hz.
  destruct (namei_Some_inv _ _ _ Hk) as [He Hnul].
  destruct (join_shape cur n He Hs) as (a & -> & Hcur).
  assert (Ha : contains nul a = false).
  { destruct Hcur as [->| ->]; [done|].
    rewrite contains_app in Hnul. by apply orb_false_iff in Hnul as [? _]. }
  assert (Hst : startswith slash (a +:+ String slash n) = startswith slash cur).
  { destruct a as [|x a]; [|by destruct Hcur as [->| ->]].
    destruct Hcur as [->| ->]; [done|reflexivity]. }
  assert (Hw : foldl (walk_step (nodes f))
                 (Some (if startswith slash cur then [] else cwd f))
                 (split slash a) = Some k).
  { revert Hk. unfold namei. rewrite He, Hnul. cbn [orb].
    destruct Hcur as [->| ->]; [done|].
    rewrite split_app. cbn [split]. rewrite foldl_snoc.
    apply walk_step_empty. }
  unfold namei.
  replace (is_empty (a +:+ String slash n)) with false by (by destruct a).
  rewrite contains_app, Ha. cbn [contains orb]. rewrite Hz, orb_false_r.
  replace (Ascii.eqb slash nul) with false by reflexivity.
  rewrite Hst, split_app, (split_none _ _ Hs), foldl_snoc, Hw.
  by apply walk_step_name.
Qed.

(** Resolution only looks at which keys are directories. *)
Lemma namei_same_dirs (f f' : FS) (p : string) :
  cwd f' = cwd f ->
  (forall key, is_dir_key (nodes f') key = is_dir_key (nodes f) key) ->
  namei f' p = namei f p.
Proof.
  intros Hc Hd. unfold namei. rewrite Hc.
  destruct (is_empty p || contains nul p); [done|].
  generalize (Some (if startswith slash p then [] else cwd f)).
  induction (split slash p) as [|c l IH]; intros acc; cbn [foldl]; [done|].
  rewrite IH. f_equal. unfold walk_step. destruct acc; [|done]. by rewrite Hd.
Qed.

Lemma is_dir_key_insert_file m key k r w (d : list byte) :
  is_dir_key m k = false ->
  is_dir_key (<[k := File r w d]> m) key = is_dir_key m key.
Proof.
  intros Hk. unfold is_dir_key in *.
  destruct (decide (k = key)) as [->|Hne].
  - rewrite lookup_insert_eq. by destruct (m !! key) as [[]|].
  - by rewrite lookup_insert_ne.
Qed.

End OsFacts.

(** ** The handlers, one by one *)

Section ExplorerFacts.

Import Explorer.

Lemma append_rows_omap (f : FS) (path : string) (store : list row) (entries : list string) :
  append_rows f path store entries = store ++ omap (row_of f path) entries.
Proof.
  unfold append_rows. revert store.
  induction entries as [|e l IH]; intros store; cbn.
  - by rewrite app_nil_r.
  - rewrite IH. destruct (row_of f path e); [|done].
    by rewrite <- app_assoc.
Qed.

Lemma load_directory_not_dir (w : World) (path : string) :
  Os.isdir (fs w) path = false -> load_directory w path = w.
Proof. intros H. unfold load_directory. by rewrite H. Qed.

(** A load whose listing and icons succeed. *)
Lemma load_directory_ok (w : World) (path : string) (entries : list string) :
  Os.isdir (fs w) path = true ->
  Os.listdir (fs w) path = inr entries ->
  "folder" ∈ theme w -> "text-x-generic" ∈ theme w ->
  load_directory w path =
    set_app w (mkApp path path
                 (omap (row_of (fs w) path) (merge_sort String.le entries))
                 None (preview_box (app w))).
Proof.
  intros Hd Hl H1 H2. unfold load_directory, load_icon.
  rewrite Hd, Hl. cbn [negb].
  rewrite !bool_decide_eq_true_2 by done.
  by rewrite append_rows_omap.
Qed.

Lemma load_directory_fs (w : World) (path : string) :
  fs (load_directory w path) = fs w.
Proof. unfold load_directory. by repeat case_match. Qed.

Lemma load_directory_stdout (w : World) (path : string) :
  stdout (load_directory w path) = stdout w.
Proof. unfold load_directory. by repeat case_match. Qed.

Lemma load_directory_theme (w : World) (path : string) :
  theme (load_directory w path) = theme w.
Proof. unfold load_directory. by repeat case_match. Qed.

(** A load either leaves the window alone or moves to [path] with no
    selection. *)
Lemma load_directory_app (w : World) (path : string) :
  app (load_directory w path) = app w
  \/ (Os.isdir (fs w) path = true
      /\ current_path (app (load_directory w path)) = path
      /\ selection (app (load_directory w path)) = None).
Proof.
  unfold load_directory.
  destruct (Os.isdir (fs w) path) eqn:Hd; cbn [negb]; [right|by left].
  by repeat case_match.
Qed.

Lemma row_of_Some (f : FS) (path e : string) (r : row) :
  row_of f path e = Some r ->
  row_name r = e /\ row_path r = Path.join path e
  /\ Str.startswith Str.dot e = false
  /\ exists sz, Os.stat f (Path.join path e) = inr sz.
Proof.
  unfold row_of. destruct (Str.startswith Str.dot e); [done|].
  destruct (Os.stat f (Path.join path e)) as [?|sz] eqn:Hs; [done|].
  intros [= <-]. eauto.
Qed.

Lemma row_of_is_Some (f : FS) (path e : string) :
  Str.startswith Str.dot e = false ->
  (exists sz, Os.stat f (Path.join path e) = inr sz) ->
  exists r, row_of f path e = Some r /\ row_name r = e
            /\ row_path r = Path.join path e.
Proof.
  intros Hh [sz Hs]. unfold row_of. rewrite Hh, Hs. eauto.
Qed.

(** The names of the rows built from a list of names. *)
Lemma elem_of_row_names (f : FS) (path : string) (l : list string) (n : string) :
  n ∈ row_name <$> omap (row_of f path) l <->
  n ∈ l /\ Str.startswith Str.dot n = false
  /\ exists sz, Os.stat f (Path.join path n) = inr sz.
Proof.
  rewrite list_elem_of_fmap. setoid_rewrite list_elem_of_omap. split.
  - intros (r & -> & e & He & Hr).
    apply row_of_Some in Hr as (<- & _ & Hh & Hs). eauto.
  - intros (Hn & Hh & Hs).
    destruct (row_of_is_Some f path n Hh Hs) as (r & Hr & Hname & _).
    exists r. split; [done|]. eauto.
Qed.

Lemma row_names_sorted (f : FS) (path : string) (l : list string) :
  StronglySorted String.le l ->
  StronglySorted String.le (row_name <$> omap (row_of f path) l).
Proof.
  induction 1 as [|e l Hs IH Hall]; cbn; [constructor|].
  destruct (row_of f path e) as [r|] eqn:Hr; [|done].
  apply row_of_Some in Hr as (Hn & _). cbn. rewrite Hn.
  constructor; [done|].
  rewrite Forall_forall in Hall |- *.
  intros n Hin. apply Hall. by apply elem_of_row_names in Hin as [? _].
Qed.

Lemma preview_file_fs (w : World) (p : string) : fs (preview_file w p) = fs w.
Proof.
  unfold preview_file, preview_image, preview_text. by repeat case_match.
Qed.

Lemma preview_file_stdout (w : World) (p : string) :
  stdout (preview_file w p) = stdout w.
Proof.
  unfold preview_file, preview_image, preview_text. by repeat case_match.
Qed.

Lemma preview_file_keeps_model (w : World) (p : string) :
  keeps_model w (preview_file w p).
Proof.
  unfold keeps_model, preview_file, preview_image, preview_text.
  by repeat case_match.
Qed.

Lemma get_selected_file_keeps (w w' : World) :
  keeps_model w w' -> get_selected_file w' = get_selected_file w.
Proof. intros (_ & Hs & Hi). unfold get_selected_file. by rewrite Hs, Hi. Qed.

Lemma state_of_send_message (w : World) (m : message) :
  state_of (send_message w m) = state_of w.
Proof. reflexivity. Qed.

Lemma send_state_stdout (w : World) :
  stdout (send_state w) = stdout w ++ [state_of (send_state w)].
Proof. reflexivity. Qed.

Lemma emitted_app (w w' : World) (l : list message) :
  stdout w' = stdout w ++ l -> emitted w w' = l.
Proof. unfold emitted. intros ->. by rewrite drop_app_length. Qed.

End ExplorerFacts.

(** * The claims *)

Section Claims.

Import Explorer.

(** C7. A directory load whose listing succeeds leaves rows that are sorted
    by name, none of them hidden (no name starts with a dot); the rows are
    exactly the listed, visible names whose [stat] succeeds, so a child whose
    [stat] fails is left out, and nothing is written to either output
    stream. *)
Theorem C7_load_sorted_visible (w : World) (path : string) (entries : list string) :
  Os.isdir (fs w) path = true ->
  Os.listdir (fs w) path = inr entries ->
  "folder" ∈ theme w -> "text-x-generic" ∈ theme w ->
  let w' := load_directory w path in
  let names := row_name <$> file_store (app w') in
  StronglySorted String.le names
  /\ (forall n, n ∈ names -> Str.startswith Str.dot n = false)
  /\ (forall n, n ∈ names <->
        n ∈ entries /\ Str.startswith Str.dot n = false
        /\ exists sz, Os.stat (fs w) (Path.join path n) = inr sz)
  /\ stdout w' = stdout w /\ stderr w' = stderr w.
Proof.
  intros Hd Hl H1 H2 w' names. subst w' names.
  rewrite (load_directory_ok w path entries Hd Hl H1 H2). cbn [app set_app file_store].
  assert (Hiff : forall n,
    n ∈ row_name <$> omap (row_of (fs w) path) (merge_sort String.le entries) <->
    n ∈ entries /\ Str.startswith Str.dot n = false
    /\ exists sz, Os.stat (fs w) (Path.join path n) = inr sz).
  { intros n. rewrite elem_of_row_names.
    by rewrite (merge_sort_Permutation String.le entries). }
  split; [|split; [|split; [|split]]]; try done.
  - apply row_names_sorted, StronglySorted_merge_sort; apply _.
  - intros n Hn. by apply Hiff in Hn as (_ & ? & _).
Qed.

Lemma C7_load_sorted_visible_witness :
  let w' := load_directory Sample.w0 "/tmp/x" in
  let names := row_name <$> file_store (app w') in
  StronglySorted String.le names
  /\ (forall n, n ∈ names -> Str.startswith Str.dot n = false)
  /\ (forall n, n ∈ names <->
        n ∈ Os.children Sample.tree ["tmp"; "x"]
        /\ Str.startswith Str.dot n = false
        /\ exists sz, Os.stat Sample.disk (Path.join "/tmp/x" n) = inr sz)
  /\ stdout w' = stdout Sample.w0 /\ stderr w' = stderr Sample.w0.
Proof.
  apply (C7_load_sorted_visible Sample.w0 "/tmp/x"
           (Os.children Sample.tree ["tmp"; "x"])).
  - vm_compute; reflexivity.
  - vm_compute; reflexivity.
  - apply list_elem_of_here.
  - apply list_elem_of_further, list_elem_of_here.
Defined.

(** C10. When the path is a directory but listing it fails, the load still
    moves [current_path] to the new path and leaves the rows empty; nothing is
    written to standard output, and the diagnostic goes to standard error. *)
Theorem C10_listing_failure (w : World) (path : string) (e : exn) :
  Os.isdir (fs w) path = true ->
  Os.listdir (fs w) path = inl e ->
  let w' := load_directory w path in
  current_path (app w') = path
  /\ file_store (app w') = []
  /\ stdout w' = stdout w
  /\ stderr w' = stderr w ++ ["Error loading directory: " +:+ str_exn e].
Proof.
  intros Hd Hl w'. subst w'. unfold load_directory. by rewrite Hd, Hl.
Qed.

Lemma C10_listing_failure_witness :
  let w' := load_directory Sample.w0 "/tmp/x/locked" in
  current_path (app w') = "/tmp/x/locked"
  /\ file_store (app w') = []
  /\ stdout w' = stdout Sample.w0
  /\ stderr w' = stderr Sample.w0
       ++ ["Error loading directory: "
           +:+ str_exn (OSError EACCES "/tmp/x/locked")].
Proof.
  apply (C10_listing_failure Sample.w0 "/tmp/x/locked"
           (OSError EACCES "/tmp/x/locked")).
  - vm_compute; reflexivity.
  - vm_compute; reflexivity.
Defined.

(** C9. A delete handled while the selected path is neither a regular file
    nor a directory removes nothing: the file system is unchanged, the
    current directory is reloaded, and the one message emitted is
    [delete_complete], not an error. *)
Theorem C9_delete_stale (w : World) (p : string) :
  get_selected_file w = Some p ->
  Str.is_empty p = false ->
  Os.isfile (fs w) p = false ->
  Os.isdir (fs w) p = false ->
  let w' := handle_delete w in
  fs w' = fs w
  /\ app w' = app (load_directory w (current_path (app w)))
  /\ stdout w' = stdout w ++ [MDeleteComplete].
Proof.
  intros Hs He Hf Hd w'. subst w'. unfold handle_delete.
  rewrite Hs. cbn [sel_truthy sel_path]. rewrite He, Hf, Hd. cbn [negb].
  replace (set_fs w (fs w)) with w by (by destruct w).
  cbn [fs app stdout send_message].
  by rewrite load_directory_fs, load_directory_stdout.
Qed.

Lemma C9_delete_stale_witness :
  let w := set_fs (select_row Sample.w0 0) Sample.disk_without_a in
  let w' := handle_delete w in
  fs w' = fs w
  /\ app w' = app (load_directory w (current_path (app w)))
  /\ stdout w' = stdout w ++ [MDeleteComplete].
Proof.
  apply (C9_delete_stale
           (set_fs (select_row Sample.w0 0) Sample.disk_without_a)
           "/tmp/x/a.txt"); vm_compute; reflexivity.
Defined.

(** C3. A delete whose selection is a non-empty directory fails: [os.rmdir]
    raises an [OSError] naming the directory, the window and the file system
    are left as they were, and the one message emitted is the error carrying
    [str] of that exception; no [delete_complete] is emitted. *)
Theorem C3_delete_nonempty_dir (w : World) (p : string) :
  get_selected_file w = Some p ->
  nonempty_dir (fs w) p = true ->
  exists n,
    Os.rmdir (fs w) p = inl (OSError n p)
    /\ let w' := handle_delete w in
       app w' = app w /\ fs w' = fs w
       /\ stdout w' = stdout w ++ [MError (str_exn (OSError n p))]
       /\ MDeleteComplete ∉ emitted w w'.
Proof.
  intros Hs Hn. unfold nonempty_dir in Hn.
  destruct (Os.namei (fs w) p) as [k|] eqn:Hk; [|done].
  apply andb_true_iff in Hn as [Hd Hc].
  destruct (namei_Some_inv _ _ _ Hk) as [He _].
  assert (Hnode : exists r wr, nodes (fs w) !! k = Some (Dir r wr)).
  { unfold Os.is_dir_key in Hd. destruct (nodes (fs w) !! k) as [[]|]; naive_solver. }
  destruct Hnode as (r & wr & Hnode).
  assert (Hrm : exists n, Os.rmdir (fs w) p = inl (OSError n p)).
  { unfold Os.rmdir. rewrite (resolve_Some _ _ _ Hk), Hnode.
    case_decide; [by eauto|].
    destruct (Os.parent_writable (nodes (fs w)) k); cbn [negb]; [|by eauto].
    destruct (Os.children (nodes (fs w)) k); [done|by eauto]. }
  destruct Hrm as [n Hrm]. exists n. split; [done|].
  assert (Hw : handle_delete w = send_message w (MError (str_exn (OSError n p)))).
  { unfold handle_delete. rewrite Hs. cbn [sel_truthy sel_path].
    rewrite He. cbn [negb].
    unfold Os.isfile, Os.isdir. rewrite Hk, Hd.
    unfold Os.is_file_key. rewrite Hnode. by rewrite Hrm. }
  cbn zeta. rewrite Hw. repeat split.
  rewrite (emitted_app w _ [MError (str_exn (OSError n p))]) by done.
  by intros [=]%list_elem_of_singleton.
Qed.

Lemma C3_delete_nonempty_dir_witness :
  let w := select_row Sample.w0 1 in
  exists n,
    Os.rmdir (fs w) "/tmp/x/b" = inl (OSError n "/tmp/x/b")
    /\ let w' := handle_delete w in
       app w' = app w /\ fs w' = fs w
       /\ stdout w' = stdout w ++ [MError (str_exn (OSError n "/tmp/x/b"))]
       /\ MDeleteComplete ∉ emitted w w'.
Proof.
  apply (C3_delete_nonempty_dir (select_row Sample.w0 1) "/tmp/x/b");
    vm_compute; reflexivity.
Defined.

Lemma dict_get_absent (k : string) (d : list (string * pyval)) :
  has_key k d = false -> dict_get k d = VNone.
Proof.
  unfold has_key. induction d as [|[k' v] d IH]; [done|].
  cbn [existsb dict_get fst]. intros [Hk Hd]%orb_false_iff.
  by rewrite Hd, Hk.
Qed.

(** C2 (as the code has it). An upload command that lacks the filename field
    or the data field is dropped in silence: the handler emits no message,
    writes no file and changes nothing. *)
Theorem C2_upload_missing_field (w : World) (command : list (string * pyval)) :
  has_key "filename" command = false \/ has_key "data" command = false ->
  handle_upload w command = w.
Proof.
  intros [H|H]; unfold handle_upload; rewrite (dict_get_absent _ _ H); cbn [truthy].
  - done.
  - by rewrite andb_false_r.
Qed.

Lemma C2_upload_missing_field_witness :
  handle_upload Sample.w0 [("type", VStr "upload"); ("filename", VStr "n.txt")]
  = Sample.w0.
Proof.
  apply (C2_upload_missing_field Sample.w0
           [("type", VStr "upload"); ("filename", VStr "n.txt")]).
  right. reflexivity.
Defined.

(** C2 as stated fails: an upload command without its data field makes the
    explorer emit nothing at all, so no error message. *)
Lemma C2_upload_without_data_emits_no_error :
  has_key "data" [("type", VStr "upload"); ("filename", VStr "n.txt")] = false
  /\ stdout (handle_command Sample.w0
               (VDict [("type", VStr "upload"); ("filename", VStr "n.txt")]))
     = stdout Sample.w0
  /\ forall msg,
       MError msg ∉ stdout (handle_command Sample.w0
                              (VDict [("type", VStr "upload"); ("filename", VStr "n.txt")])).
Proof.
  split; [reflexivity|]. split; [reflexivity|].
  intros msg. vm_compute.
  intros H. inversion H as [|? ? ? H']; subst. inversion H'.
Qed.

Lemma actions_by_kind (f : FS) (s : option string) :
  get_available_actions f s =
    match sel_kind_of f s with
    | FileSelected => ["upload"; "download"; "delete"]
    | DirSelected => ["upload"; "delete"]
    | NoSelection | StaleSelected => ["upload"]
    end.
Proof.
  unfold sel_kind_of, get_available_actions.
  destruct (sel_truthy s); cbn [andb]; by repeat case_match.
Qed.

(** C4 (as the code has it). The actions are a function of the selected path
    and of what the file system answers, when asked, to whether that path is
    a regular file and whether it is a directory: two file systems that give
    the same two answers for the selected path give the same actions; with
    nothing selected the result is [upload] on every file system; and
    [upload] is in every result. *)
Theorem C4_actions_follow_file_system (f1 f2 : FS) (s : option string) :
  Os.isfile f1 (sel_path s) = Os.isfile f2 (sel_path s) ->
  Os.isdir f1 (sel_path s) = Os.isdir f2 (sel_path s) ->
  get_available_actions f1 s = get_available_actions f2 s
  /\ get_available_actions f1 None = ["upload"]
  /\ "upload" ∈ get_available_actions f1 s.
Proof.
  intros Hf Hd. split; [|split].
  - unfold get_available_actions. by rewrite Hf, Hd.
  - reflexivity.
  - rewrite actions_by_kind. case_match; apply list_elem_of_here.
Qed.

Lemma C4_actions_follow_file_system_witness :
  get_available_actions Sample.disk (Some "/tmp/x/b")
  = get_available_actions Sample.disk_without_a (Some "/tmp/x/b")
  /\ get_available_actions Sample.disk None = ["upload"]
  /\ "upload" ∈ get_available_actions Sample.disk (Some "/tmp/x/b").
Proof.
  apply (C4_actions_follow_file_system Sample.disk Sample.disk_without_a
           (Some "/tmp/x/b")); vm_compute; reflexivity.
Defined.

(** C4 as stated fails: the actions are not a function of the selection
    alone.  With the same path selected, the file system that holds the file
    gives [upload; download; delete], and the one from which another process
    removed it gives [upload]. *)
Lemma C4_same_selection_different_actions :
  get_available_actions Sample.disk (Some "/tmp/x/a.txt")
  = ["upload"; "download"; "delete"]
  /\ get_available_actions Sample.disk_without_a (Some "/tmp/x/a.txt")
     = ["upload"].
Proof. split; vm_compute; reflexivity. Qed.

(** *** What the handlers do to the model and to standard output *)

Lemma wf_of_app (w w' : World) :
  app w' = app w -> well_formed w -> well_formed w'.
Proof. unfold well_formed. by intros ->. Qed.

Lemma wf_keeps (w w' : World) :
  keeps_model w w' -> well_formed w -> well_formed w'.
Proof. unfold well_formed. by intros (-> & -> & ->). Qed.

Lemma load_directory_wf (w : World) (path : string) :
  well_formed w -> well_formed (load_directory w path).
Proof.
  intros Hw. unfold load_directory.
  destruct (Os.isdir (fs w) path); cbn [negb]; [|done].
  repeat case_match; split; cbn; try done; try (by intros ? ?%elem_of_nil).
  intros r. rewrite append_rows_omap. cbn.
  intros (e & _ & (<- & -> & _)%row_of_Some)%list_elem_of_omap. done.
Qed.

Lemma load_directory_same_path (w : World) :
  current_path (app (load_directory w (current_path (app w))))
  = current_path (app w).
Proof.
  destruct (load_directory_app w (current_path (app w))) as [->|(_ & -> & _)]; done.
Qed.

Lemma load_directory_cur_or_clear (w : World) (path : string) :
  current_path (app (load_directory w path)) = current_path (app w)
  \/ selection (app (load_directory w path)) = None.
Proof.
  destruct (load_directory_app w path) as [->|(_ & _ & ->)]; auto.
Qed.

Lemma handle_upload_path (w : World) (d : list (string * pyval)) :
  current_path (app (handle_upload w d)) = current_path (app w).
Proof.
  unfold handle_upload. repeat case_match; try done.
  cbn [app send_message]. by rewrite load_directory_same_path.
Qed.

Lemma handle_delete_path (w : World) :
  current_path (app (handle_delete w)) = current_path (app w).
Proof.
  unfold handle_delete. repeat case_match; try done;
    cbn [app send_message]; by rewrite load_directory_same_path.
Qed.

Lemma handle_command_path (w : World) (c : pyval) :
  current_path (app (handle_command w c)) = current_path (app w).
Proof.
  unfold handle_command. repeat case_match; try done.
  - apply handle_upload_path.
  - unfold handle_download_request. by repeat case_match.
  - apply handle_delete_path.
Qed.

Ltac wf_after_load :=
  match goal with
  | |- well_formed (Explorer.send_message (Explorer.load_directory ?x ?p) _) =>
      apply (wf_of_app (Explorer.load_directory x p)); [done|];
      by apply load_directory_wf
  end.

Lemma handle_command_wf (w : World) (c : pyval) :
  well_formed w -> well_formed (handle_command w c).
Proof.
  intros Hw. unfold handle_command. repeat case_match; try done.
  - unfold handle_upload. repeat case_match; try done. wf_after_load.
  - unfold handle_download_request. by repeat case_match.
  - unfold handle_delete. repeat case_match; try done; wf_after_load.
Qed.

Lemma wf_set_selection (w : World) (i : nat) :
  i < length (file_store (app w)) ->
  well_formed w -> well_formed (set_selection w (Some i)).
Proof.
  intros Hi [Hr _]. split; [done|]. cbn. by intros ? [= <-].
Qed.

Lemma step_wf (w : World) (ev : event) :
  well_formed w -> well_formed (step w ev).
Proof.
  intros Hw. destruct ev as [c|t| |i|i|f]; cbn [step].
  - by apply handle_command_wf.
  - unfold on_path_changed. case_match; [|done].
    apply (wf_of_app (load_directory (set_path_entry w t) t)); [done|].
    by apply load_directory_wf.
  - unfold on_up_clicked. case_match; [|done].
    apply (wf_of_app (load_directory w (Path.dirname (current_path (app w)))));
      [done|]. by apply load_directory_wf.
  - unfold on_file_activated. repeat case_match; try done.
    + apply (wf_of_app (load_directory w (row_path r))); [done|].
      by apply load_directory_wf.
    + apply (wf_keeps w); [apply preview_file_keeps_model | done].
  - unfold select_row. case_bool_decide as Hi; [|done].
    unfold on_selection_changed. apply (wf_set_selection w i Hi) in Hw.
    case_match; [|done].
    eapply wf_keeps; [|exact Hw].
    apply (preview_file_keeps_model (set_selection w (Some i))).
  - done.
Qed.

Lemma init_wf (home : string) (f : FS) (th : list string)
    (ld ra : list byte -> bool) :
  well_formed (init home f th ld ra).
Proof.
  unfold init.
  match goal with
  | |- well_formed (send_state (load_directory ?x ?p)) =>
      apply (wf_of_app (load_directory x p)); [done|];
      apply load_directory_wf
  end.
  split; cbn; [by intros ? ?%elem_of_nil | done].
Qed.

Lemma reachable_wf (w : World) : reachable w -> well_formed w.
Proof. induction 1; [apply init_wf | by apply step_wf]. Qed.

Lemma get_selected_file_cleared (w : World) :
  selection (app w) = None -> get_selected_file w = None.
Proof. unfold get_selected_file. by intros ->. Qed.

Lemma step_cur_or_clear (w : World) (ev : event) :
  current_path (app (step w ev)) = current_path (app w)
  \/ get_selected_file (step w ev) = None.
Proof.
  destruct ev as [c|t| |i|i|f]; cbn [step].
  - left. apply handle_command_path.
  - unfold on_path_changed. case_match; [|by left].
    destruct (load_directory_cur_or_clear (set_path_entry w t) t) as [H'|H'];
      [by left | right; by apply get_selected_file_cleared].
  - unfold on_up_clicked. case_match; [|by left].
    destruct (load_directory_cur_or_clear w (Path.dirname (current_path (app w))))
      as [H'|H']; [by left | right; by apply get_selected_file_cleared].
  - unfold on_file_activated. repeat case_match; try (by left).
    + destruct (load_directory_cur_or_clear w (row_path r)) as [H'|H'];
        [by left | right; by apply get_selected_file_cleared].
    + left. by destruct (preview_file_keeps_model w (row_path r)) as (-> & _).
  - left. unfold select_row. case_bool_decide; [|done].
    unfold on_selection_changed. case_match; [|done].
    cbn [app send_state send_message].
    by destruct (preview_file_keeps_model (set_selection w (Some i))
                   (sel_path (get_selected_file (set_selection w (Some i)))))
      as (-> & _).
  - by left.
Qed.

(** C8. A load of a directory moves to it and leaves nothing selected; any
    event that changes [current_path] leaves nothing selected; and in every
    reachable state a selection, when present, is the path of a row of the
    listing, which is a child of the current directory. *)
Theorem C8_selection_invariant :
  (forall (w : World) (path : string),
     Os.isdir (fs w) path = true ->
     current_path (app (load_directory w path)) = path
     /\ get_selected_file (load_directory w path) = None)
  /\ (forall (w : World) (ev : event),
        current_path (app (step w ev)) <> current_path (app w) ->
        get_selected_file (step w ev) = None)
  /\ (forall (w : World) (p : string),
        reachable w ->
        get_selected_file w = Some p ->
        (exists r, r ∈ file_store (app w) /\ row_path r = p
                   /\ p = Path.join (current_path (app w)) (row_name r))
        \/ p = current_path (app w)).
Proof.
  split; [|split].
  - intros w path Hd. unfold load_directory, get_selected_file.
    rewrite Hd. cbn [negb]. by repeat case_match.
  - intros w ev Hne. by destruct (step_cur_or_clear w ev).
  - intros w p Hr%reachable_wf Hs. left.
    destruct Hr as [Hrows _]. unfold get_selected_file in Hs.
    destruct (selection (app w)) as [i|]; [|done].
    destruct (file_store (app w) !! i) as [r|] eqn:Hi; [|done].
    injection Hs as <-.
    assert (Hin : r ∈ file_store (app w)) by (by eapply list_elem_of_lookup_2).
    exists r. split; [done|]. split; [done|]. by apply Hrows.
Qed.

Lemma C8_selection_invariant_witness :
  get_selected_file (load_directory (select_row Sample.w0 0) "/tmp/x/b") = None
  /\ get_selected_file (step (select_row Sample.w0 0) (RowActivated 1)) = None
  /\ ((exists r, r ∈ file_store (app (step Sample.w0 (RowSelected 0)))
                 /\ row_path r = "/tmp/x/a.txt"
                 /\ "/tmp/x/a.txt"
                    = Path.join (current_path (app (step Sample.w0 (RowSelected 0))))
                        (row_name r))
      \/ "/tmp/x/a.txt" = current_path (app (step Sample.w0 (RowSelected 0)))).
Proof.
  destruct C8_selection_invariant as (Hload & Hstep & Hreach).
  split; [|split].
  - apply (Hload (select_row Sample.w0 0) "/tmp/x/b"). vm_compute; reflexivity.
  - apply (Hstep (select_row Sample.w0 0) (RowActivated 1)).
    vm_compute. discriminate.
  - apply (Hreach (step Sample.w0 (RowSelected 0)) "/tmp/x/a.txt").
    + apply reach_step, reach_init.
    + vm_compute; reflexivity.
Defined.

(** *** The text preview *)



Lemma text_ext_not_image (ext : string) :
  ext ∈ text_exts -> bool_decide (ext ∈ image_exts) = false.
Proof.
  unfold text_exts. intros Ht.
  repeat (apply elem_of_cons in Ht as [->|Ht]; [reflexivity|]).
  by apply elem_of_nil in Ht.
Qed.

(** The incremental decoder agrees with the strict one: it reaches the end
    of exactly the contents that decode. *)
Lemma utf8_prefix_push (c : N) (r : list byte) :
  match Text.utf8_decode r with
  | Some cs => Text.utf8_prefix r = (cs, [])
  | None => (Text.utf8_prefix r).2 <> []
  end ->
  match cons c <$> Text.utf8_decode r with
  | Some cs => Text.push c (Text.utf8_prefix r) = (cs, [])
  | None => (Text.push c (Text.utf8_prefix r)).2 <> []
  end.
Proof. destruct (Text.utf8_decode r); cbn; [by intros ->|done]. Qed.

Lemma utf8_prefix_decode (bs : list byte) :
  match Text.utf8_decode bs with
  | Some cs => Text.utf8_prefix bs = (cs, [])
  | None => (Text.utf8_prefix bs).2 <> []
  end.
Proof.
  remember (length bs) as k eqn:Hk. revert bs Hk.
  induction k as [k IH] using lt_wf_ind. intros bs ->.
  assert (Hrec : forall c r, length r < length bs ->
            match cons c <$> Text.utf8_decode r with
            | Some cs => Text.push c (Text.utf8_prefix r) = (cs, [])
            | None => (Text.push c (Text.utf8_prefix r)).2 <> []
            end).
  { intros c r Hr. apply utf8_prefix_push. by apply (IH (length r)). }
  clear IH. destruct bs as [|b0 r0]; [done|].
  cbn [Text.utf8_decode Text.utf8_prefix]. cbn [length] in Hrec.
  destruct (Byte.to_N b0 <? 128)%N; [apply Hrec; lia|].
  destruct ((194 <=? Byte.to_N b0) && (Byte.to_N b0 <=? 223))%N.
  { destruct r0 as [|b1 r1]; [done|].
    destruct (Text.cont (Byte.to_N b1)); [apply Hrec; cbn; lia|done]. }
  destruct ((224 <=? Byte.to_N b0) && (Byte.to_N b0 <=? 239))%N.
  { destruct r0 as [|b1 [|b2 r2]]; [done|done|].
    match goal with
    | |- context [if ?b then Text.push _ _ else _] => destruct b
    end; [apply Hrec; cbn; lia|done]. }
  destruct ((240 <=? Byte.to_N b0) && (Byte.to_N b0 <=? 244))%N; [|done].
  destruct r0 as [|b1 [|b2 [|b3 r3]]]; [done|done|done|].
  match goal with
  | |- context [if ?b then Text.push _ _ else _] => destruct b
  end; [apply Hrec; cbn; lia|done].
Qed.

(** Every character decoded took at least one byte. *)
Lemma utf8_prefix_length (bs : list byte) :
  length (Text.utf8_prefix bs).1 + length (Text.utf8_prefix bs).2 <= length bs.
Proof.
  remember (length bs) as k eqn:Hk. revert bs Hk.
  induction k as [k IH] using lt_wf_ind. intros bs ->.
  assert (Hrec : forall c r, S (length r) <= length bs ->
            length (Text.push c (Text.utf8_prefix r)).1
            + length (Text.push c (Text.utf8_prefix r)).2 <= length bs).
  { intros c r Hr. cbn. specialize (IH (length r) Hr r eq_refl). lia. }
  clear IH. destruct bs as [|b0 r0]; [done|].
  cbn [Text.utf8_prefix]. cbn [length] in Hrec.
  destruct (Byte.to_N b0 <? 128)%N; [apply Hrec; lia|].
  destruct ((194 <=? Byte.to_N b0) && (Byte.to_N b0 <=? 223))%N.
  { destruct r0 as [|b1 r1]; [cbn; lia|].
    destruct (Text.cont (Byte.to_N b1)); [apply Hrec; cbn; lia|cbn; lia]. }
  destruct ((224 <=? Byte.to_N b0) && (Byte.to_N b0 <=? 239))%N.
  { destruct r0 as [|b1 [|b2 r2]]; [cbn; lia|cbn; lia|].
    match goal with
    | |- context [if ?b then Text.push _ _ else _] => destruct b
    end; [apply Hrec; cbn; lia|cbn; lia]. }
  destruct ((240 <=? Byte.to_N b0) && (Byte.to_N b0 <=? 244))%N; [|cbn; lia].
  destruct r0 as [|b1 [|b2 [|b3 r3]]]; [cbn; lia|cbn; lia|cbn; lia|].
  match goal with
  | |- context [if ?b then Text.push _ _ else _] => destruct b
  end; [apply Hrec; cbn; lia|cbn; lia].
Qed.

Lemma universal_newlines_length (cs : list N) :
  length (Text.universal_newlines cs) <= length cs.
Proof.
  remember (length cs) as k eqn:Hk. revert cs Hk.
  induction k as [k IH] using lt_wf_ind. intros cs ->.
  destruct cs as [|c r]; [done|]. cbn [Text.universal_newlines].
  destruct (c =? 13)%N.
  - destruct r as [|d r']; [done|]. destruct (d =? 10)%N; cbn [length].
    + specialize (IH (length r') ltac:(cbn; lia) r' eq_refl). lia.
    + specialize (IH (length (d :: r')) ltac:(cbn; lia) (d :: r') eq_refl).
      cbn [length] in IH. lia.
  - cbn [length]. specialize (IH (length r) ltac:(cbn; lia) r eq_refl). lia.
Qed.

Lemma available_le (cs : list N) : Text.available cs <= length cs.
Proof.
  unfold Text.available. pose proof (universal_newlines_length cs).
  repeat case_match; lia.
Qed.

(** A content that decodes to its end is read whatever the reader fetches. *)
Lemma read_decodable (f : FS) (p : string) (n : nat) (ra : list byte -> bool)
    (bs : list byte) (cs : list N) :
  Os.read f p = inr bs ->
  Text.utf8_decode bs = Some cs ->
  Text.read f p n ra = inr (take n (Text.universal_newlines cs)).
Proof.
  intros Hr Hd. unfold Text.read. rewrite Hr.
  pose proof (utf8_prefix_decode bs) as H. rewrite Hd in H. by rewrite H.
Qed.

(** A content of at most [n] bytes that does not decode makes the call raise,
    whatever the reader fetches: fewer than [n] characters come before the
    bad sequence. *)
Lemma read_undecodable (f : FS) (p : string) (n : nat) (ra : list byte -> bool)
    (bs : list byte) :
  Os.read f p = inr bs ->
  Text.utf8_decode bs = None ->
  length bs <= n ->
  Text.read f p n ra = inl (UnicodeDecodeError "'utf-8' codec can't decode bytes").
Proof.
  intros Hr Hd Hn. unfold Text.read. rewrite Hr.
  pose proof (utf8_prefix_decode bs) as H. rewrite Hd in H.
  pose proof (utf8_prefix_length bs) as Hl.
  pose proof (available_le (Text.utf8_prefix bs).1) as Ha.
  destruct (Text.utf8_prefix bs) as [cs [|b rest]]; [done|].
  cbn [fst snd length] in *.
  replace (n <=? Text.available cs) with false; [done|].
  symmetry. apply Nat.leb_gt.
  eapply Nat.lt_le_trans; [|exact Hn].
  eapply Nat.le_lt_trans; [exact Ha|]. lia.
Qed.






(** *** Upload, then select, then download *)

Lemma visible_name_inv (n : string) :
  visible_name n = true ->
  n <> "" /\ n <> "." /\ n <> ".."
  /\ Str.contains Str.slash n = false /\ Str.contains Os.nul n = false
  /\ Str.startswith Str.dot n = false /\ Str.is_empty n = false.
Proof.
  unfold visible_name. rewrite !andb_true_iff, !negb_true_iff.
  intros [[[H1 H2] H3] H4]. repeat split; try done; by intros ->.
Qed.

Section UploadDownload.

Variables (w : World) (F : string) (B : list byte) (k : list string).

Let cur : string := current_path (app w).
Let K : list string := k ++ [F].
Let f2 : FS := with_file (fs w) K B.

Hypothesis HB : B <> [].
Hypothesis HF : visible_name F = true.
Hypothesis Hk : Os.namei (fs w) cur = Some k.
Hypothesis Hdir : nodes (fs w) !! k = Some (Dir true true).
Hypothesis Hfree :
  nodes (fs w) !! K = None
  \/ exists d, nodes (fs w) !! K = Some (File true true d).
Hypothesis Hfolder : "folder" ∈ theme w.
Hypothesis Hfile : "text-x-generic" ∈ theme w.

Lemma ud_is_dir_k : Os.is_dir_key (nodes (fs w)) k = true.
Proof. unfold Os.is_dir_key. by rewrite Hdir. Qed.

Lemma ud_not_dir_K : Os.is_dir_key (nodes (fs w)) K = false.
Proof.
  unfold Os.is_dir_key. by destruct Hfree as [->|[d ->]].
Qed.

Lemma ud_K_ne_k : K <> k.
Proof.
  subst K. intros H. apply (f_equal length) in H.
  rewrite length_app in H. cbn in H. lia.
Qed.

Lemma ud_namei_path : Os.namei (fs w) (Path.join cur F) = Some K.
Proof.
  destruct (visible_name_inv _ HF) as (H1 & H2 & H3 & H4 & H5 & _).
  by apply namei_join; [exact Hk | exact ud_is_dir_k | ..].
Qed.

Lemma ud_open :
  Os.open_wb (fs w) (Path.join cur F) = inr (with_file (fs w) K [], K).
Proof.
  unfold Os.open_wb. rewrite (resolve_Some _ _ _ ud_namei_path).
  destruct Hfree as [->|[d ->]]; [|done].
  subst K. by rewrite removelast_last, Hdir.
Qed.

Lemma ud_write : Os.write (with_file (fs w) K []) K B = f2.
Proof.
  unfold Os.write, with_file. cbn [nodes cwd].
  rewrite lookup_insert_eq. cbn [app]. by rewrite insert_insert_eq.
Qed.

Lemma ud_namei_same (p : string) : Os.namei f2 p = Os.namei (fs w) p.
Proof.
  apply namei_same_dirs; [done|]. intros key.
  apply is_dir_key_insert_file, ud_not_dir_K.
Qed.

Lemma ud_isdir_cur : Os.isdir f2 cur = true.
Proof.
  unfold Os.isdir. rewrite ud_namei_same, Hk.
  unfold f2, with_file; cbn [nodes].
  rewrite is_dir_key_insert_file by apply ud_not_dir_K. apply ud_is_dir_k.
Qed.

Lemma ud_namei_cur : Os.namei f2 cur = Some k.
Proof. by rewrite ud_namei_same. Qed.

Lemma ud_namei_K : Os.namei f2 (Path.join cur F) = Some K.
Proof. rewrite ud_namei_same. apply ud_namei_path. Qed.

Lemma ud_listdir : Os.listdir f2 cur = inr (Os.children (nodes f2) k).
Proof.
  unfold Os.listdir. rewrite (resolve_Some _ _ _ ud_namei_cur).
  unfold f2, with_file; cbn [nodes].
  rewrite lookup_insert_ne by apply ud_K_ne_k. by rewrite Hdir.
Qed.

Lemma ud_lookup_K : nodes f2 !! K = Some (File true true B).
Proof. unfold f2, with_file; cbn [nodes]. apply lookup_insert_eq. Qed.

Lemma ud_stat : Os.stat f2 (Path.join cur F) = inr (N.of_nat (length B)).
Proof.
  unfold Os.stat. by rewrite (resolve_Some _ _ _ ud_namei_K), ud_lookup_K.
Qed.

Lemma ud_isfile : Os.isfile f2 (Path.join cur F) = true.
Proof.
  unfold Os.isfile, Os.is_file_key.
  by rewrite ud_namei_same, ud_namei_path, ud_lookup_K.
Qed.

Lemma ud_read : Os.read f2 (Path.join cur F) = inr B.
Proof.
  unfold Os.read. by rewrite (resolve_Some _ _ _ ud_namei_K), ud_lookup_K.
Qed.

(** The world after the upload. *)
Let w1 : World := handle_command w (upload_command F (Base64.b64encode B)).

Lemma ud_upload :
  w1 = send_message (load_directory (set_fs w f2) cur) (MUploadComplete F).
Proof.
  destruct (visible_name_inv _ HF) as (_ & _ & _ & _ & _ & _ & He).
  subst w1. unfold upload_command, handle_command.
  change (eq_str (dict_get "type" _) "upload") with true. cbn match.
  unfold handle_upload.
  change (dict_get "filename" _) with (VStr F).
  change (dict_get "data" _) with (VStr (Base64.b64encode B)).
  cbn [truthy]. rewrite He, (b64encode_nonempty _ HB). cbn [negb andb].
  fold cur. rewrite ud_open.
  cbn [b64decode_val]. rewrite b64decode_b64encode, ud_write. done.
Qed.

Lemma ud_store :
  file_store (app w1)
  = omap (row_of f2 cur) (merge_sort String.le (Os.children (nodes f2) k)).
Proof.
  rewrite ud_upload. cbn [app send_message].
  by rewrite (load_directory_ok (set_fs w f2) cur _ ud_isdir_cur ud_listdir Hfolder Hfile).
Qed.

Lemma ud_fs : fs w1 = f2.
Proof. rewrite ud_upload. cbn [fs send_message]. by rewrite load_directory_fs. Qed.

Lemma ud_listed : exists i r, file_store (app w1) !! i = Some r /\ row_name r = F.
Proof.
  destruct (visible_name_inv _ HF) as (_ & _ & _ & _ & _ & Hh & _).
  assert (Hin : F ∈ row_name <$> file_store (app w1)).
  { rewrite ud_store. apply elem_of_row_names. split; [|split; [done|]].
    - rewrite (merge_sort_Permutation String.le). apply elem_of_children.
      fold K. rewrite ud_lookup_K. eauto.
    - eexists. apply ud_stat. }
  apply list_elem_of_fmap in Hin as (r & Hn & Hr).
  apply list_elem_of_lookup in Hr as [i Hi]. eauto.
Qed.

Lemma ud_row_path (i : nat) (r : row) :
  file_store (app w1) !! i = Some r -> row_name r = F ->
  row_path r = Path.join cur F.
Proof.
  rewrite ud_store. intros Hi%list_elem_of_lookup_2 <-.
  by apply list_elem_of_omap in Hi as (e & _ & (<- & -> & _)%row_of_Some).
Qed.

Lemma ud_download (i : nat) (r : row) :
  file_store (app w1) !! i = Some r -> row_name r = F ->
  let w2 := select_row w1 i in
  stdout (handle_command w2 download_request_command)
  = stdout w2 ++ [MDownloadData F (Base64.b64encode B)].
Proof.
  intros Hi Hn w2.
  destruct (visible_name_inv _ HF) as (_ & _ & _ & Hs & _).
  assert (Hcur : Str.is_empty cur = false).
  { pose proof ud_isdir_cur as H. by apply isdir_nonempty in H. }
  assert (Hpath : Str.is_empty (Path.join cur F) = false).
  { destruct (join_shape cur F Hcur Hs) as (a & -> & _). by destruct a. }
  assert (Hsel1 : get_selected_file (set_selection w1 (Some i)) = Some (Path.join cur F)).
  { unfold get_selected_file. cbn [app set_selection set_app selection file_store].
    rewrite Hi. cbn. by rewrite (ud_row_path i r). }
  assert (Hw2 : get_selected_file w2 = Some (Path.join cur F) /\ fs w2 = f2).
  { subst w2. unfold select_row.
    rewrite bool_decide_eq_true_2 by (by eapply lookup_lt_Some).
    unfold on_selection_changed. rewrite Hsel1. cbn [sel_truthy sel_path].
    rewrite Hpath. cbn [negb andb fs set_selection set_app].
    rewrite ud_fs, ud_isfile. split.
    - etrans; [|exact Hsel1].
      apply (get_selected_file_keeps (set_selection w1 (Some i))
               (send_state (preview_file (set_selection w1 (Some i)) _))).
      apply (preview_file_keeps_model (set_selection w1 (Some i))).
    - cbn [fs send_state send_message]. rewrite preview_file_fs. apply ud_fs. }
  destruct Hw2 as [Hsel2 Hfs2].
  unfold download_request_command, handle_command.
  change (eq_str (dict_get "type" _) "upload") with false.
  change (eq_str (dict_get "type" _) "download_request") with true. cbn match.
  unfold handle_download_request.
  rewrite Hsel2. cbn [sel_truthy sel_path]. rewrite Hpath, Hfs2, ud_isfile, ud_read.
  cbn [negb andb stdout send_message]. by rewrite (basename_join _ _ Hcur Hs).
Qed.

End UploadDownload.

(** C1 (as the code has it). For every non-empty byte sequence [B] and every
    visible plain name [F] (not empty, no slash, no leading dot), in a current
    directory that can be listed and written and where [F] is free or a
    readable and writable regular file: the upload of [F] with the base64
    encoding of [B] completes and lists a row named [F]; selecting that row
    and handling [download_request] emits one [download_data] message for [F]
    whose data base64-decodes to exactly [B]. *)
Theorem C1_upload_select_download
    (w : World) (F : string) (B : list byte) (k : list string) :
  B <> [] ->
  visible_name F = true ->
  Os.namei (fs w) (current_path (app w)) = Some k ->
  nodes (fs w) !! k = Some (Dir true true) ->
  (nodes (fs w) !! (k ++ [F]) = None
   \/ exists d, nodes (fs w) !! (k ++ [F]) = Some (File true true d)) ->
  "folder" ∈ theme w -> "text-x-generic" ∈ theme w ->
  let w1 := handle_command w (upload_command F (Base64.b64encode B)) in
  emitted w w1 = [MUploadComplete F]
  /\ (exists i r, file_store (app w1) !! i = Some r /\ row_name r = F)
  /\ (forall i r,
        file_store (app w1) !! i = Some r -> row_name r = F ->
        let w2 := select_row w1 i in
        exists data,
          emitted w2 (handle_command w2 download_request_command)
          = [MDownloadData F data]
          /\ Base64.b64decode data = inr B).
Proof.
  intros HB HF Hk Hdir Hfree H1 H2 w1. subst w1. split; [|split].
  - apply emitted_app.
    rewrite (ud_upload w F B k HB HF Hk Hdir Hfree).
    cbn [stdout send_message]. by rewrite load_directory_stdout.
  - by apply (ud_listed w F B k HB HF Hk Hdir Hfree H1 H2).
  - intros i r Hi Hn w2. exists (Base64.b64encode B). split.
    + apply emitted_app.
      by apply (ud_download w F B k HB HF Hk Hdir Hfree H1 H2 i r).
    + apply b64decode_b64encode.
Qed.

Lemma C1_upload_select_download_witness :
  let w1 := handle_command Sample.w0
              (upload_command "n.txt" (Base64.b64encode [x68; x69])) in
  emitted Sample.w0 w1 = [MUploadComplete "n.txt"]
  /\ (exists i r, file_store (app w1) !! i = Some r /\ row_name r = "n.txt")
  /\ (forall i r,
        file_store (app w1) !! i = Some r -> row_name r = "n.txt" ->
        let w2 := select_row w1 i in
        exists data,
          emitted w2 (handle_command w2 download_request_command)
          = [MDownloadData "n.txt" data]
          /\ Base64.b64decode data = inr [x68; x69]).
Proof.
  apply (C1_upload_select_download Sample.w0 "n.txt" [x68; x69] ["tmp"; "x"]).
  - discriminate.
  - reflexivity.
  - vm_compute; reflexivity.
  - vm_compute; reflexivity.
  - left. vm_compute; reflexivity.
  - apply list_elem_of_here.
  - apply list_elem_of_further, list_elem_of_here.
Defined.

(** C1 as stated fails.  A hidden name is written but never listed, so the
    created file cannot be selected.  And the encoding of the empty byte
    sequence is the empty string: that upload command is dropped, no file is
    created, and whichever row is selected afterwards, [download_request]
    never answers for the file. *)
Lemma C1_upload_not_always_downloadable :
  (emitted Sample.w0
     (handle_command Sample.w0 (upload_command ".env" (Base64.b64encode [x68; x69])))
   = [MUploadComplete ".env"]
   /\ Os.read (fs (handle_command Sample.w0
                     (upload_command ".env" (Base64.b64encode [x68; x69]))))
        "/tmp/x/.env" = inr [x68; x69]
   /\ row_name <$> file_store (app (handle_command Sample.w0
                     (upload_command ".env" (Base64.b64encode [x68; x69]))))
      = ["a.txt"; "b"; "locked"])
  /\ Base64.b64encode [] = ""
  /\ handle_command Sample.w0 (upload_command "n.txt" (Base64.b64encode []))
     = Sample.w0
  /\ Os.isfile (fs Sample.w0) "/tmp/x/n.txt" = false
  /\ forall (i : nat) (data : string),
       MDownloadData "n.txt" data
       ∉ stdout (handle_command (select_row Sample.w0 i) download_request_command).
Proof.
  split; [vm_compute; repeat split|].
  split; [reflexivity|]. split; [reflexivity|]. split; [reflexivity|].
  intros i data Hin.
  assert (Hno : forall l, Forall (fun m => match m with
                                          | MDownloadData "n.txt" _ => False
                                          | _ => True
                                          end) l ->
                          MDownloadData "n.txt" data ∈ l -> False).
  { intros l Hl Hm. rewrite Forall_forall in Hl. exact (Hl _ Hm). }
  revert Hin. apply Hno.
  destruct i as [|[|[|i]]].
  - vm_compute. repeat constructor.
  - vm_compute. repeat constructor.
  - vm_compute. repeat constructor.
  - replace (select_row Sample.w0 (S (S (S i)))) with Sample.w0.
    + vm_compute. repeat constructor.
    + unfold select_row. rewrite bool_decide_eq_false_2; [done|].
      change (length (file_store (app Sample.w0))) with 3. lia.
Qed.

(** [f.read(10000)  # Limit to 10KB] counts characters: of a file of 10,001
    two-byte characters the preview holds 10,000, which are 20,000 bytes of
    the file. *)
Example preview_of_two_byte_characters :
  let shown := take 10000 (repeat 233%N 10001) in
  preview_box (app (preview_file (Sample.accents_world 10001) "/d/a.txt"))
  = [TextView shown]
  /\ N.of_nat (length shown) = 10000%N
  /\ N.of_nat (Text.utf8_size shown) = 20000%N
  /\ N.of_nat (length (Sample.accents 10001)) = 20002%N.
Proof. repeat split; vm_compute; reflexivity. Qed.

End Claims.

(** * More of the explorer *)

Section More.

Import Explorer.

Lemma load_directory_preview (w : World) (path : string) :
  preview_box (app (load_directory w path)) = preview_box (app w).
Proof. unfold load_directory. by repeat case_match. Qed.

(** The window a load builds depends on the file system, the icon theme and
    the preview box only. *)
Lemma load_directory_app_eq (w w' : World) (path : string) :
  fs w' = fs w -> theme w' = theme w ->
  preview_box (app w') = preview_box (app w) ->
  Os.isdir (fs w) path = true ->
  app (load_directory w' path) = app (load_directory w path).
Proof.
  intros Hf Ht Hp Hd. unfold load_directory, load_icon.
  rewrite Hf, Ht, Hd. cbn [negb].
  repeat case_match; cbn; by rewrite ?Hp.
Qed.

(** X1. The first message of every run is the state message for the home
    directory with nothing selected and [upload] as the only action, also
    when the home directory cannot be listed or does not exist. *)
Theorem X1_first_message (home : string) (f : FS) (th : list string)
    (ld ra : list byte -> bool) :
  stdout (init home f th ld ra) = [MState home None ["upload"]]
  /\ current_path (app (init home f th ld ra)) = home
  /\ fs (init home f th ld ra) = f.
Proof.
  unfold init.
  set (w := mkWorld (mkApp home home [] None [Label "Select a file to preview"])
              f th ld ra [] []).
  assert (H : current_path (app (load_directory w home)) = home
              /\ selection (app (load_directory w home)) = None).
  { destruct (load_directory_app w home) as [->|(_ & -> & ->)]; done. }
  destruct H as [Hc Hs].
  unfold send_state, get_selected_file. cbn [stdout app fs send_message].
  rewrite load_directory_stdout, load_directory_fs, Hc, Hs. done.
Qed.

(** X2. A command that is not a JSON object, or whose type is missing or is
    not one of [upload], [download_request], [delete], is dropped: nothing is
    emitted on standard output and neither the window nor the file system
    changes. *)
Theorem X2_unrecognised_command_dropped (w : World) (c : pyval) :
  recognised c = false ->
  stdout (handle_command w c) = stdout w
  /\ app (handle_command w c) = app w
  /\ fs (handle_command w c) = fs w.
Proof.
  unfold recognised, handle_command. destruct c; try done.
  intros [[-> ->]%orb_false_iff ->]%orb_false_iff. done.
Qed.

Lemma X2_unrecognised_command_dropped_witness :
  stdout (handle_command Sample.w0 (VDict [("type", VStr "rename"); ("filename", VStr "a.txt")]))
  = stdout Sample.w0
  /\ app (handle_command Sample.w0 (VDict [("type", VStr "rename"); ("filename", VStr "a.txt")]))
     = app Sample.w0
  /\ fs (handle_command Sample.w0 (VDict [("type", VStr "rename"); ("filename", VStr "a.txt")]))
     = fs Sample.w0.
Proof.
  apply (X2_unrecognised_command_dropped Sample.w0
           (VDict [("type", VStr "rename"); ("filename", VStr "a.txt")])).
  reflexivity.
Defined.

(** X3. Reloading is idempotent on the window: loading the same path twice
    in a row gives the rows, path and selection of loading it once, and a
    load never touches the file system or standard output. *)
Theorem X3_reload_idempotent (w : World) (path : string) :
  app (load_directory (load_directory w path) path) = app (load_directory w path)
  /\ fs (load_directory w path) = fs w
  /\ stdout (load_directory w path) = stdout w.
Proof.
  split; [|split; [apply load_directory_fs | apply load_directory_stdout]].
  destruct (Os.isdir (fs w) path) eqn:Hd.
  - apply load_directory_app_eq; try done.
    + apply load_directory_fs.
    + apply load_directory_theme.
    + apply load_directory_preview.
  - by rewrite !(load_directory_not_dir w path Hd).
Qed.

(** *** Download *)

(** X4. With a readable regular file selected, [download_request] emits one
    [download_data] message carrying the base name of the selected path and
    the base64 text of the whole content, which decodes back to the content;
    the window and the file system are left as they were.  An empty file is
    answered like any other. *)
Theorem X4_download_selected_file (w : World) (p : string) (bs : list byte) :
  get_selected_file w = Some p ->
  Os.isfile (fs w) p = true ->
  Os.read (fs w) p = inr bs ->
  let w' := handle_download_request w in
  emitted w w' = [MDownloadData (Path.basename p) (Base64.b64encode bs)]
  /\ Base64.b64decode (Base64.b64encode bs) = inr bs
  /\ app w' = app w /\ fs w' = fs w.
Proof.
  intros Hs Hf Hr w'. subst w'. unfold handle_download_request.
  assert (He : Str.is_empty p = false).
  { unfold Os.isfile in Hf. destruct (Os.namei (fs w) p) eqn:E; [|done].
    by apply namei_Some_inv in E as [? _]. }
  rewrite Hs. cbn [sel_truthy sel_path]. rewrite He, Hf, Hr. cbn [negb andb].
  split; [by apply emitted_app|]. split; [apply b64decode_b64encode|done].
Qed.

Lemma X4_download_selected_file_witness :
  let w := select_row Sample.w0 0 in
  let w' := handle_download_request w in
  emitted w w' = [MDownloadData (Path.basename "/tmp/x/a.txt")
                    (Base64.b64encode Sample.hello)]
  /\ Base64.b64decode (Base64.b64encode Sample.hello) = inr Sample.hello
  /\ app w' = app w /\ fs w' = fs w.
Proof.
  apply (X4_download_selected_file (select_row Sample.w0 0) "/tmp/x/a.txt"
           Sample.hello); vm_compute; reflexivity.
Defined.

(** X5. [download_request] never changes the window or the file system.
    Unless the selection is a regular file it emits nothing at all; when it
    is, it emits exactly one message: the data, or the error of the failed
    read. *)
Theorem X5_download_request_outcomes (w : World) :
  app (handle_download_request w) = app w
  /\ fs (handle_download_request w) = fs w
  /\ match sel_kind_of (fs w) (get_selected_file w) with
     | FileSelected =>
         exists m, stdout (handle_download_request w) = stdout w ++ [m]
           /\ ((exists bs, Os.read (fs w) (sel_path (get_selected_file w)) = inr bs
                  /\ m = MDownloadData (Path.basename (sel_path (get_selected_file w)))
                           (Base64.b64encode bs))
               \/ (exists e, Os.read (fs w) (sel_path (get_selected_file w)) = inl e
                     /\ m = MError (str_exn e)))
     | _ => handle_download_request w = w
     end.
Proof.
  unfold handle_download_request, sel_kind_of.
  destruct (sel_truthy (get_selected_file w)); cbn [andb]; [|done].
  destruct (Os.isfile (fs w) (sel_path (get_selected_file w))).
  - destruct (Os.read (fs w) (sel_path (get_selected_file w))) as [e|bs];
      (split; [done|]; split; [done|]); eexists; (split; [reflexivity|]);
      [right|left]; eauto.
  - by destruct (Os.isdir (fs w) (sel_path (get_selected_file w))).
Qed.

(** *** Delete *)

Lemma load_directory_dir (w : World) (path : string) :
  Os.isdir (fs w) path = true ->
  current_path (app (load_directory w path)) = path
  /\ selection (app (load_directory w path)) = None.
Proof.
  intros Hd. unfold load_directory. rewrite Hd. cbn [negb].
  by repeat case_match.
Qed.

(** Every row a load leaves is a name whose [stat] succeeded. *)
Lemma load_directory_rows_stat (w : World) (path : string) (r : row) :
  Os.isdir (fs w) path = true ->
  r ∈ file_store (app (load_directory w path)) ->
  exists e sz, row_of (fs w) path e = Some r
               /\ Os.stat (fs w) (row_path r) = inr sz.
Proof.
  intros Hd. unfold load_directory. rewrite Hd. cbn [negb].
  repeat case_match; cbn; try (by intros ?%elem_of_nil).
  rewrite append_rows_omap. cbn.
  intros (e & _ & Hr)%list_elem_of_omap. exists e.
  pose proof Hr as (_ & -> & _ & sz & Hsz)%row_of_Some. eauto.
Qed.

Lemma is_dir_key_delete (m : gmap (list string) node) (k key : list string) :
  Os.is_dir_key m k = false ->
  Os.is_dir_key (delete k m) key = Os.is_dir_key m key.
Proof.
  intros Hk. unfold Os.is_dir_key in *.
  destruct (decide (k = key)) as [->|Hne].
  - rewrite lookup_delete_eq. by destruct (m !! key) as [[]|].
  - by rewrite lookup_delete_ne.
Qed.

(** X6. Deleting a selected regular file whose directory is writable removes
    exactly that node, reloads the current directory and emits
    [delete_complete] alone; afterwards the path is no regular file, nothing
    is selected and no row shows the path. *)
Theorem X6_delete_selected_file (w : World) (p : string) (k : list string) :
  get_selected_file w = Some p ->
  Os.namei (fs w) p = Some k ->
  Os.is_file_key (nodes (fs w)) k = true ->
  Os.parent_writable (nodes (fs w)) k = true ->
  Os.isdir (fs w) (current_path (app w)) = true ->
  let w' := handle_delete w in
  nodes (fs w') = delete k (nodes (fs w))
  /\ emitted w w' = [MDeleteComplete]
  /\ Os.isfile (fs w') p = false
  /\ get_selected_file w' = None
  /\ p ∉ row_path <$> file_store (app w').
Proof.
  intros Hs Hk Hfile Hpw Hcur w'.
  destruct (namei_Some_inv _ _ _ Hk) as [He _].
  assert (Hnd : Os.is_dir_key (nodes (fs w)) k = false).
  { unfold Os.is_file_key, Os.is_dir_key in *.
    by destruct (nodes (fs w) !! k) as [[]|]. }
  set (f' := mkFS (delete k (nodes (fs w))) (cwd (fs w))).
  assert (Hrm : Os.remove (fs w) p = inr f').
  { unfold Os.remove. rewrite (resolve_Some _ _ _ Hk), Hpw.
    unfold Os.is_file_key in Hfile.
    by destruct (nodes (fs w) !! k) as [[]|]. }
  assert (Hsame : forall q, Os.namei f' q = Os.namei (fs w) q).
  { intros q. apply namei_same_dirs; [done|].
    intros key. by apply is_dir_key_delete. }
  assert (Hcur' : Os.isdir f' (current_path (app w)) = true).
  { revert Hcur. unfold Os.isdir. rewrite Hsame.
    destruct (Os.namei (fs w) (current_path (app w))); [|done].
    unfold f'; cbn [nodes]. by rewrite is_dir_key_delete. }
  assert (Hw : w' = send_message
                      (load_directory (set_fs w f') (current_path (app w)))
                      MDeleteComplete).
  { subst w'. unfold handle_delete. rewrite Hs. cbn [sel_truthy sel_path].
    rewrite He. cbn [negb].
    assert (Hisf : Os.isfile (fs w) p = true) by (unfold Os.isfile; by rewrite Hk).
    by rewrite Hisf, Hrm. }
  assert (Hstat : forall sz, Os.stat f' p <> inr sz).
  { intros sz. unfold Os.stat. rewrite (resolve_Some f' p k) by (by rewrite Hsame).
    unfold f'; cbn [nodes]. by rewrite lookup_delete_eq. }
  rewrite Hw. cbn [fs app send_message].
  rewrite load_directory_fs. cbn [fs set_fs nodes].
  split; [done|]. split.
  { apply emitted_app. cbn [stdout send_message]. by rewrite load_directory_stdout. }
  split.
  { unfold Os.isfile, Os.is_file_key. rewrite Hsame, Hk.
    unfold f'; cbn [nodes]. by rewrite lookup_delete_eq. }
  split.
  { apply get_selected_file_cleared.
    by apply (load_directory_dir (set_fs w f') (current_path (app w))). }
  intros (r & Hp & Hr)%list_elem_of_fmap.
  destruct (load_directory_rows_stat (set_fs w f') _ r Hcur' Hr) as (e & sz & _ & Hsz).
  rewrite <- Hp in Hsz. by apply (Hstat sz).
Qed.

Lemma X6_delete_selected_file_witness :
  let w := select_row Sample.w0 0 in
  let w' := handle_delete w in
  nodes (fs w') = delete ["tmp"; "x"; "a.txt"] (nodes (fs w))
  /\ emitted w w' = [MDeleteComplete]
  /\ Os.isfile (fs w') "/tmp/x/a.txt" = false
  /\ get_selected_file w' = None
  /\ "/tmp/x/a.txt" ∉ row_path <$> file_store (app w').
Proof.
  apply (X6_delete_selected_file (select_row Sample.w0 0) "/tmp/x/a.txt"
           ["tmp"; "x"; "a.txt"]); vm_compute; reflexivity.
Defined.

(** X7. Deleting a selected directory that is empty, is not the root and
    lies in a writable directory removes it and emits [delete_complete]
    alone. *)
Theorem X7_delete_empty_directory (w : World) (p : string) (k : list string) :
  get_selected_file w = Some p ->
  Os.namei (fs w) p = Some k ->
  Os.is_dir_key (nodes (fs w)) k = true ->
  k <> [] ->
  Os.parent_writable (nodes (fs w)) k = true ->
  Os.children (nodes (fs w)) k = [] ->
  let w' := handle_delete w in
  nodes (fs w') = delete k (nodes (fs w))
  /\ nodes (fs w') !! k = None
  /\ emitted w w' = [MDeleteComplete].
Proof.
  intros Hs Hk Hd Hroot Hpw Hch w'.
  destruct (namei_Some_inv _ _ _ Hk) as [He _].
  assert (Hnode : exists r wr, nodes (fs w) !! k = Some (Dir r wr)).
  { unfold Os.is_dir_key in Hd. destruct (nodes (fs w) !! k) as [[]|]; naive_solver. }
  destruct Hnode as (r & wr & Hnode).
  assert (Hw : w' = send_message
                      (load_directory
                         (set_fs w (mkFS (delete k (nodes (fs w))) (cwd (fs w))))
                         (current_path (app w)))
                      MDeleteComplete).
  { subst w'. unfold handle_delete. rewrite Hs. cbn [sel_truthy sel_path].
    rewrite He. cbn [negb].
    unfold Os.isfile, Os.isdir, Os.is_file_key. rewrite Hk, Hnode, Hd.
    unfold Os.rmdir. rewrite (resolve_Some _ _ _ Hk), Hnode, Hpw, Hch.
    by rewrite decide_False. }
  rewrite Hw. cbn [fs send_message]. rewrite load_directory_fs. cbn [fs set_fs nodes].
  split; [done|]. split; [apply lookup_delete_eq|].
  apply emitted_app. cbn [stdout send_message]. by rewrite load_directory_stdout.
Qed.

Lemma X7_delete_empty_directory_witness :
  let w := select_row Sample.w0 2 in
  let w' := handle_delete w in
  nodes (fs w') = delete ["tmp"; "x"; "locked"] (nodes (fs w))
  /\ nodes (fs w') !! ["tmp"; "x"; "locked"] = None
  /\ emitted w w' = [MDeleteComplete].
Proof.
  apply (X7_delete_empty_directory (select_row Sample.w0 2) "/tmp/x/locked"
           ["tmp"; "x"; "locked"]); try (vm_compute; reflexivity).
  discriminate.
Defined.

(** X8. A delete that fails changes nothing: with nothing selected the
    handler does nothing at all; with a selection it either completes,
    emitting [delete_complete] alone after the reload, or emits one error
    message and leaves the window and the file system exactly as they
    were. *)
Theorem X8_delete_outcomes (w : World) :
  (sel_truthy (get_selected_file w) = false -> handle_delete w = w)
  /\ (sel_truthy (get_selected_file w) = true ->
      (exists f',
         handle_delete w
         = send_message (load_directory (set_fs w f') (current_path (app w)))
             MDeleteComplete
         /\ stdout (handle_delete w) = stdout w ++ [MDeleteComplete])
      \/ (exists e, handle_delete w = send_message w (MError (str_exn e)))).
Proof.
  unfold handle_delete. split; intros ->; [done|].
  match goal with
  | |- context [match ?r with inl _ => _ | inr _ => _ end] => destruct r as [e|f']
  end.
  - right. by exists e.
  - left. exists f'. split; [done|].
    cbn [stdout send_message]. by rewrite load_directory_stdout.
Qed.

(** *** Upload *)

(** X9. An upload whose data decodes leaves, at the path [join] gives for
    the filename, a file holding exactly the decoded bytes: earlier content
    is replaced, every other node is untouched, and [upload_complete] is the
    one message.  The filename is joined as it is, so the file may lie
    outside the current directory or be hidden. *)
Theorem X9_upload_writes_decoded_bytes
    (w : World) (name data : string) (B : list byte) (K : list string) :
  Str.is_empty name = false ->
  Str.is_empty data = false ->
  Base64.b64decode data = inr B ->
  Os.namei (fs w) (Path.join (current_path (app w)) name) = Some K ->
  (nodes (fs w) !! K = None
   /\ Os.parent_writable (nodes (fs w)) K = true)
  \/ (exists r d, nodes (fs w) !! K = Some (File r true d)) ->
  let w' := handle_command w (upload_command name data) in
  (exists r, nodes (fs w') = <[K := File r true B]> (nodes (fs w)))
  /\ (forall key, key <> K -> nodes (fs w') !! key = nodes (fs w) !! key)
  /\ emitted w w' = [MUploadComplete name].
Proof.
  intros Hn Hd HB HK Htarget w'.
  assert (Hopen : exists r,
    Os.open_wb (fs w) (Path.join (current_path (app w)) name)
    = inr (mkFS (<[K := File r true []]> (nodes (fs w))) (cwd (fs w)), K)).
  { unfold Os.open_wb. rewrite (resolve_Some _ _ _ HK).
    destruct Htarget as [[-> Hpw]|(r & d & ->)]; [|by exists r].
    exists true. unfold Os.parent_writable in Hpw.
    destruct (nodes (fs w) !! removelast K) as [[| ? wr|]|]; try done.
    by rewrite Hpw. }
  destruct Hopen as [r Hopen].
  assert (Hw : w' = send_message
                 (load_directory
                    (set_fs w (mkFS (<[K := File r true B]> (nodes (fs w))) (cwd (fs w))))
                    (current_path (app w)))
                 (MUploadComplete name)).
  { subst w'. unfold upload_command, handle_command.
    change (eq_str (dict_get "type" _) "upload") with true. cbn match.
    unfold handle_upload.
    change (dict_get "filename" _) with (VStr name).
    change (dict_get "data" _) with (VStr data).
    cbn [truthy]. rewrite Hn, Hd. cbn [negb andb].
    rewrite Hopen. cbn [b64decode_val]. rewrite HB.
    unfold Os.write. cbn [nodes cwd]. rewrite lookup_insert_eq. cbn [app].
    by rewrite insert_insert_eq. }
  rewrite Hw. cbn [fs send_message]. rewrite load_directory_fs. cbn [fs set_fs nodes].
  split; [by exists r|]. split.
  - intros key Hne. by rewrite lookup_insert_ne.
  - apply emitted_app. cbn [stdout send_message]. by rewrite load_directory_stdout.
Qed.

Lemma X9_upload_writes_decoded_bytes_witness :
  let w' := handle_command Sample.w0 (upload_command "../escaped.txt" "aGk=") in
  (exists r, nodes (fs w')
             = <[["tmp"; "escaped.txt"] := File r true [x68; x69]]> (nodes (fs Sample.w0)))
  /\ (forall key, key <> ["tmp"; "escaped.txt"] ->
        nodes (fs w') !! key = nodes (fs Sample.w0) !! key)
  /\ emitted Sample.w0 w' = [MUploadComplete "../escaped.txt"].
Proof.
  apply (X9_upload_writes_decoded_bytes Sample.w0 "../escaped.txt" "aGk="
           [x68; x69] ["tmp"; "escaped.txt"]); try (vm_compute; reflexivity).
  left. split; vm_compute; reflexivity.
Defined.

(** X10. The file is opened for writing before the data is decoded: an
    upload onto an existing writable file whose data is not valid base64
    emits the decoding error and leaves the file empty; its earlier content is
    lost, and the listing is not reloaded. *)
Theorem X10_upload_bad_data_truncates
    (w : World) (name data : string) (e : exn) (K : list string)
    (r : bool) (old : list byte) :
  Str.is_empty name = false ->
  Str.is_empty data = false ->
  Base64.b64decode data = inl e ->
  Os.namei (fs w) (Path.join (current_path (app w)) name) = Some K ->
  nodes (fs w) !! K = Some (File r true old) ->
  let w' := handle_command w (upload_command name data) in
  nodes (fs w') = <[K := File r true []]> (nodes (fs w))
  /\ emitted w w' = [MError (str_exn e)]
  /\ app w' = app w.
Proof.
  intros Hn Hd HB HK Hold w'. subst w'.
  unfold upload_command, handle_command.
  change (eq_str (dict_get "type" _) "upload") with true. cbn match.
  unfold handle_upload.
  change (dict_get "filename" _) with (VStr name).
  change (dict_get "data" _) with (VStr data).
  cbn [truthy]. rewrite Hn, Hd. cbn [negb andb].
  unfold Os.open_wb. rewrite (resolve_Some _ _ _ HK), Hold.
  cbn [b64decode_val]. rewrite HB.
  split; [done|]. split; [by apply emitted_app|done].
Qed.

Lemma X10_upload_bad_data_truncates_witness :
  let w' := handle_command Sample.w0 (upload_command "a.txt" "aGk") in
  nodes (fs w') = <[["tmp"; "x"; "a.txt"] := File true true []]> (nodes (fs Sample.w0))
  /\ emitted Sample.w0 w' = [MError (str_exn (BinasciiError "Incorrect padding"))]
  /\ app w' = app Sample.w0.
Proof.
  apply (X10_upload_bad_data_truncates Sample.w0 "a.txt" "aGk"
           (BinasciiError "Incorrect padding") ["tmp"; "x"; "a.txt"] true Sample.hello);
    vm_compute; reflexivity.
Defined.

(** X11. What an upload command can do.  With a filename or data that is
    missing or empty it does nothing.  With a filename that is not a string
    the exception leaves the handler: nothing is emitted on standard output
    and nothing is written.  Otherwise exactly one message is emitted:
    [upload_complete] with the filename, or an error, and with an error the
    window is unchanged. *)
Theorem X11_upload_outcomes (w : World) (d : list (string * pyval)) :
  (truthy (dict_get "filename" d) && truthy (dict_get "data" d) = false ->
   handle_upload w d = w)
  /\ (truthy (dict_get "filename" d) && truthy (dict_get "data" d) = true ->
      (forall s, dict_get "filename" d <> VStr s) ->
      stdout (handle_upload w d) = stdout w
      /\ fs (handle_upload w d) = fs w /\ app (handle_upload w d) = app w)
  /\ (forall name,
        truthy (dict_get "filename" d) && truthy (dict_get "data" d) = true ->
        dict_get "filename" d = VStr name ->
        emitted w (handle_upload w d) = [MUploadComplete name]
        \/ (exists e, emitted w (handle_upload w d) = [MError (str_exn e)]
                      /\ app (handle_upload w d) = app w)).
Proof.
  unfold handle_upload. split; [|split].
  - by intros ->.
  - intros -> Hns. destruct (dict_get "filename" d); try done.
    by destruct (Hns s).
  - intros name -> ->.
    destruct (Os.open_wb (fs w) (Path.join (current_path (app w)) name))
      as [e|[f1 k]].
    + right. exists e. split; [by apply emitted_app|done].
    + destruct (b64decode_val (dict_get "data" d)) as [e|bytes].
      * right. exists e. split; [by apply emitted_app|done].
      * left. apply emitted_app. cbn [stdout send_message].
        by rewrite load_directory_stdout.
Qed.

(** *** Going up and down *)

Lemma upto_last_none (c : ascii) (s : string) :
  Str.contains c s = false -> Str.upto_last c s = "".
Proof. destruct s; [done|]. cbn [Str.upto_last]. by intros ->. Qed.

Lemma upto_last_app (c : ascii) (a n : string) :
  Str.contains c n = false ->
  Str.upto_last c (a +:+ String c n) = a +:+ String c "".
Proof.
  intros Hn. induction a as [|x a IH].
  - rewrite !append_nil. cbn [Str.upto_last Str.contains].
    rewrite Ascii.eqb_refl. cbn [orb]. by rewrite upto_last_none.
  - rewrite !append_cons. cbn [Str.upto_last].
    replace (Str.contains c (String x (a +:+ String c n))) with true; [by rewrite IH|].
    cbn [Str.contains]. rewrite contains_app. cbn [Str.contains].
    rewrite Ascii.eqb_refl. cbn [orb]. by rewrite !orb_true_r.
Qed.

Lemma upto_last_all (c : ascii) (s : string) :
  Str.all_char c s = true -> Str.upto_last c s = s.
Proof.
  induction s as [|x s IH]; [done|].
  cbn [Str.all_char Str.upto_last Str.contains].
  intros [Hx Hs]%andb_true_iff. by rewrite Hx, IH.
Qed.

Lemma upto_last_length (c : ascii) (s : string) :
  String.length (Str.upto_last c s) <= String.length s.
Proof.
  induction s as [|x s IH]; [done|]. cbn [Str.upto_last].
  destruct (Str.contains c (String x s)); cbn; lia.
Qed.

Lemma upto_last_endswith (c : ascii) (s : string) :
  Str.is_empty (Str.upto_last c s) = false ->
  Str.endswith c (Str.upto_last c s) = true.
Proof.
  induction s as [|x s IH]; [done|]. cbn [Str.upto_last].
  destruct (Str.contains c (String x s)) eqn:Hc; [|done]. intros _.
  cbn [Str.contains] in Hc.
  destruct (Str.upto_last c s) as [|y t] eqn:Hu.
  - destruct (Str.contains c s) eqn:Hs.
    + destruct s as [|z s]; [done|]. cbn [Str.upto_last] in Hu.
      by rewrite Hs in Hu.
    + rewrite orb_false_r in Hc. by cbn.
  - cbn [Str.endswith]. by apply IH.
Qed.

Lemma rstrip_length (c : ascii) (s : string) :
  String.length (Str.rstrip c s) <= String.length s.
Proof.
  induction s as [|x s IH]; [done|]. cbn [Str.rstrip].
  destruct (Ascii.eqb x c && Str.is_empty (Str.rstrip c s)); cbn; lia.
Qed.

Lemma rstrip_shorter (c : ascii) (s : string) :
  Str.endswith c s = true ->
  String.length (Str.rstrip c s) < String.length s.
Proof.
  induction s as [|x s IH]; [done|].
  destruct s as [|y s].
  - cbn. intros ->. cbn. lia.
  - intros H. specialize (IH H). cbn [Str.rstrip] in *.
    destruct (Ascii.eqb x c && Str.is_empty _); cbn in *; lia.
Qed.

Lemma rstrip_cons (c x : ascii) (s : string) :
  Str.rstrip c (String x s)
  = if Ascii.eqb x c && Str.is_empty (Str.rstrip c s) then ""
    else String x (Str.rstrip c s).
Proof. reflexivity. Qed.

Lemma rstrip_id (c : ascii) (s : string) :
  Str.endswith c s = false -> Str.rstrip c s = s.
Proof.
  induction s as [|x s IH]; [done|].
  destruct s as [|y s].
  - cbn. by intros ->.
  - intros H. rewrite rstrip_cons, (IH H). cbn [Str.is_empty].
    by rewrite andb_false_r.
Qed.

Lemma rstrip_snoc (c : ascii) (a : string) :
  Str.rstrip c (a +:+ String c "") = Str.rstrip c a.
Proof.
  induction a as [|x a IH].
  - rewrite append_nil. cbn. by rewrite Ascii.eqb_refl.
  - rewrite append_cons. cbn [Str.rstrip]. by rewrite IH.
Qed.

Lemma all_char_snoc (c : ascii) (a : string) :
  Str.all_char c (a +:+ String c "") = Str.all_char c a.
Proof.
  induction a as [|x a IH].
  - rewrite append_nil. cbn. by rewrite Ascii.eqb_refl.
  - rewrite append_cons. cbn [Str.all_char]. by rewrite IH.
Qed.

Lemma all_char_endswith (c : ascii) (a : string) :
  Str.all_char c a = true -> Str.is_empty a = false -> Str.endswith c a = true.
Proof.
  induction a as [|x a IH]; [done|].
  cbn [Str.all_char]. intros [Hx Ha]%andb_true_iff _.
  destruct a as [|y a]; [done|]. cbn [Str.endswith]. by apply IH.
Qed.

Lemma append_length (a b : string) :
  String.length (a +:+ b) = String.length a + String.length b.
Proof. induction a as [|x a IH]; [done|]. rewrite append_cons. cbn. lia. Qed.

(** [dirname] gives back its argument exactly on the paths made of slashes
    (and the empty path). *)
Lemma dirname_fixed (p : string) :
  Path.dirname p = p <-> Str.all_char Str.slash p = true.
Proof.
  unfold Path.dirname. split.
  - destruct (Str.is_empty (Str.upto_last Str.slash p)) eqn:He; cbn [negb andb].
    + intros <-. by destruct (Str.upto_last Str.slash p).
    + destruct (Str.all_char Str.slash (Str.upto_last Str.slash p)) eqn:Ha;
        cbn [negb]; [by intros <-|].
      intros Hp. exfalso.
      pose proof (rstrip_shorter _ _ (upto_last_endswith _ _ He)) as H1.
      pose proof (upto_last_length Str.slash p) as H2.
      rewrite Hp in H1. lia.
  - intros Ha. rewrite (upto_last_all _ _ Ha), Ha. cbn [negb].
    by rewrite andb_false_r.
Qed.

Lemma endswith_snoc (c : ascii) (a : string) :
  Str.endswith c (a +:+ String c "") = true.
Proof.
  induction a as [|x a IH]; [by rewrite append_nil; cbn; rewrite Ascii.eqb_refl|].
  rewrite append_cons. cbn [Str.endswith].
  destruct (a +:+ String c "") eqn:E; [by destruct a|]. exact IH.
Qed.

(** The parent of a child is the directory it was joined to, unless that
    was written with a trailing slash. *)
Lemma dirname_join (cur n : string) :
  Str.is_empty cur = false -> Str.contains Str.slash n = false ->
  Str.endswith Str.slash cur = false \/ Str.all_char Str.slash cur = true ->
  Path.dirname (Path.join cur n) = cur.
Proof.
  intros Hc Hn Hcur. unfold Path.join.
  rewrite (startswith_contains _ _ Hn), Hc. cbn [orb].
  destruct (Str.endswith Str.slash cur) eqn:He.
  - destruct Hcur as [|Hall]; [done|].
    destruct (endswith_inv _ _ He) as [a ->]. rewrite append_snoc.
    unfold Path.dirname. rewrite (upto_last_app _ _ _ Hn), Hall.
    replace (Str.is_empty (a +:+ String Str.slash "")) with false by (by destruct a).
    done.
  - assert (Hnall : Str.all_char Str.slash cur = false).
    { destruct (Str.all_char Str.slash cur) eqn:Hall; [|done].
      by rewrite (all_char_endswith _ _ Hall Hc) in He. }
    unfold Path.dirname.
    change (cur +:+ "/" +:+ n) with (cur +:+ String Str.slash n).
    rewrite (upto_last_app _ _ _ Hn), all_char_snoc, Hnall, rstrip_snoc.
    replace (Str.is_empty (cur +:+ String Str.slash "")) with false by (by destruct cur).
    cbn [negb andb]. by apply rstrip_id.
Qed.

(** X12. Going up does nothing at all exactly when the current path consists
    of slashes only (the root) or is empty; from every other path it emits a
    state message. *)
Theorem X12_up_at_root (w : World) :
  (on_up_clicked w = w <-> Str.all_char Str.slash (current_path (app w)) = true)
  /\ (Str.all_char Str.slash (current_path (app w)) = false ->
      stdout (on_up_clicked w) = stdout w ++ [state_of (on_up_clicked w)]).
Proof.
  assert (Hgo : Path.dirname (current_path (app w)) <> current_path (app w) ->
                stdout (on_up_clicked w) = stdout w ++ [state_of (on_up_clicked w)]).
  { intros Hne. unfold on_up_clicked. rewrite bool_decide_eq_true_2 by done.
    rewrite send_state_stdout. by rewrite load_directory_stdout. }
  split.
  - rewrite <- dirname_fixed. split.
    + intros Hw. destruct (decide (Path.dirname (current_path (app w))
                                   = current_path (app w))) as [|Hne]; [done|].
      specialize (Hgo Hne). rewrite Hw in Hgo.
      apply (f_equal length) in Hgo. rewrite length_app in Hgo. cbn in Hgo. lia.
    + intros Heq. unfold on_up_clicked. rewrite bool_decide_eq_false_2; [done|].
      by intros ?.
  - intros Hall. apply Hgo. rewrite dirname_fixed. by rewrite Hall.
Qed.

(** X13. Down and up again: activating the row of a directory moves into
    it, and going up from there comes back to the directory left, with the
    window a reload of it gives; the two steps emit the two state messages.
    (The directory left must not have been entered with a trailing slash.) *)
Theorem X13_enter_then_up (w : World) (i : nat) (r : row) :
  file_store (app w) !! i = Some r ->
  row_path r = Path.join (current_path (app w)) (row_name r) ->
  Str.is_empty (row_name r) = false ->
  Str.contains Str.slash (row_name r) = false ->
  Os.isdir (fs w) (row_path r) = true ->
  Os.isdir (fs w) (current_path (app w)) = true ->
  Str.endswith Str.slash (current_path (app w)) = false
  \/ Str.all_char Str.slash (current_path (app w)) = true ->
  let w1 := on_file_activated w i in
  let w2 := on_up_clicked w1 in
  current_path (app w1) = row_path r
  /\ current_path (app w2) = current_path (app w)
  /\ app w2 = app (load_directory w (current_path (app w)))
  /\ emitted w w2 = [state_of w1; state_of w2].
Proof.
  intros Hi Hp Hne Hs Hd Hcur Hshape w1 w2.
  assert (Hc : Str.is_empty (current_path (app w)) = false)
    by (by apply isdir_nonempty in Hcur).
  assert (Hw1 : w1 = send_state (load_directory w (row_path r))).
  { subst w1. unfold on_file_activated. by rewrite Hi, Hd. }
  destruct (load_directory_dir w (row_path r) Hd) as [Hc1 _].
  assert (Hcur1 : current_path (app w1) = row_path r) by (by rewrite Hw1).
  assert (Hparent : Path.dirname (current_path (app w1)) = current_path (app w)).
  { rewrite Hcur1, Hp. by apply dirname_join. }
  assert (Hdiff : current_path (app w) <> current_path (app w1)).
  { rewrite Hcur1, Hp. intros Heq. apply (f_equal String.length) in Heq.
    destruct (join_shape _ _ Hc Hs) as (a & Hj & Ha). rewrite Hj in Heq.
    rewrite append_length in Heq. cbn in Heq.
    destruct (row_name r); [done|].
    destruct Ha as [Ha|Ha]; rewrite Ha in Heq at 1;
      rewrite ?append_length in Heq; cbn in Heq; lia. }
  assert (Hw2 : w2 = send_state (load_directory w1 (current_path (app w)))).
  { subst w2. unfold on_up_clicked. rewrite Hparent.
    by rewrite bool_decide_eq_true_2. }
  assert (Hfs1 : fs w1 = fs w) by (rewrite Hw1; apply load_directory_fs).
  assert (Hcur' : Os.isdir (fs w1) (current_path (app w)) = true) by (by rewrite Hfs1).
  split; [done|]. split.
  { rewrite Hw2. by apply (load_directory_dir w1). }
  split.
  { rewrite Hw2. cbn [app send_state send_message].
    apply load_directory_app_eq; try done.
    - rewrite Hw1. apply load_directory_theme.
    - rewrite Hw1. apply load_directory_preview. }
  apply emitted_app.
  rewrite Hw2 at 1. rewrite send_state_stdout, load_directory_stdout.
  rewrite <- Hw2. rewrite Hw1 at 1.
  rewrite send_state_stdout, load_directory_stdout, <- Hw1.
  by rewrite <- app_assoc.
Qed.

Lemma X13_enter_then_up_witness :
  let w1 := on_file_activated Sample.w0 1 in
  let w2 := on_up_clicked w1 in
  current_path (app w1) = "/tmp/x/b"
  /\ current_path (app w2) = current_path (app Sample.w0)
  /\ app w2 = app (load_directory Sample.w0 (current_path (app Sample.w0)))
  /\ emitted Sample.w0 w2 = [state_of w1; state_of w2].
Proof.
  apply (X13_enter_then_up Sample.w0 1 (mkRow FolderIcon "b" None "/tmp/x/b"));
    try (vm_compute; reflexivity).
  left. vm_compute; reflexivity.
Defined.

(** X14. The explorer never moves to something that is not a directory:
    whatever the event, the current path either stays or is a directory of
    the file system the event found; and a command never moves it. *)
Theorem X14_moves_only_to_directories (w : World) (ev : event) :
  (current_path (app (step w ev)) = current_path (app w)
   \/ Os.isdir (fs w) (current_path (app (step w ev))) = true)
  /\ (forall c : pyval,
        current_path (app (step w (Command c))) = current_path (app w)).
Proof.
  split; [|intros c; apply handle_command_path].
  assert (Hl : forall w1 p, fs w1 = fs w ->
            current_path (app w1) = current_path (app w) ->
            current_path (app (load_directory w1 p)) = current_path (app w)
            \/ Os.isdir (fs w) (current_path (app (load_directory w1 p))) = true).
  { intros w1 p Hf Hc.
    destruct (load_directory_app w1 p) as [->|(Hd & -> & _)]; [by left|].
    right. by rewrite <- Hf. }
  destruct ev as [c|t| |i|i|f]; cbn [step].
  - left. apply handle_command_path.
  - unfold on_path_changed. case_match; [|by left]. by apply Hl.
  - unfold on_up_clicked. case_match; [|by left]. by apply Hl.
  - unfold on_file_activated. repeat case_match; try (by left).
    + by apply Hl.
    + left. by destruct (preview_file_keeps_model w (row_path r)) as (-> & _).
  - left. unfold select_row. case_bool_decide; [|done].
    unfold on_selection_changed. case_match; [|done].
    cbn [app send_state send_message].
    by destruct (preview_file_keeps_model (set_selection w (Some i))
                   (sel_path (get_selected_file (set_selection w (Some i)))))
      as (-> & _).
  - by left.
Qed.

(** *** The listing and the messages over a whole run *)

Lemma children_NoDup (m : gmap (list string) node) (k : list string) :
  NoDup (Os.children m k).
Proof.
  unfold Os.children.
  pose proof (NoDup_fst_map_to_list m) as Hnd.
  induction (map_to_list m) as [|[key v] l IH]; cbn; [constructor|].
  apply NoDup_cons in Hnd as [Hnotin Hnd]. specialize (IH Hnd).
  destruct (Os.child_of k key) as [n|] eqn:Hc; [|done].
  apply NoDup_cons. split; [|done].
  intros ([key' v'] & Hin & Hc')%list_elem_of_omap.
  apply child_of_Some in Hc, Hc'. cbn in *. subst.
  apply Hnotin. apply list_elem_of_fmap. by exists (k ++ [n], v').
Qed.

Lemma row_names_NoDup (f : FS) (path : string) (l : list string) :
  NoDup l -> NoDup (row_name <$> omap (row_of f path) l).
Proof.
  induction 1 as [|e l Hnotin _ IH]; cbn; [constructor|].
  destruct (row_of f path e) as [r|] eqn:Hr; [|done].
  apply row_of_Some in Hr as (Hn & _). cbn. rewrite Hn.
  apply NoDup_cons. split; [|done].
  by intros [? _]%elem_of_row_names.
Qed.

Lemma listdir_children (f : FS) (p : string) (entries : list string) :
  Os.listdir f p = inr entries ->
  exists k, entries = Os.children (nodes f) k.
Proof.
  unfold Os.listdir. repeat case_match; try done. intros [= <-]. eauto.
Qed.

Lemma listing_ok_nil (w : World) : file_store (app w) = [] -> listing_ok w.
Proof.
  unfold listing_ok. intros ->. cbn. repeat split; constructor.
Qed.

Lemma load_directory_listing_ok (w : World) (path : string) :
  listing_ok w -> listing_ok (load_directory w path).
Proof.
  intros Hw. unfold load_directory.
  destruct (Os.isdir (fs w) path); cbn [negb]; [|done].
  destruct (Os.listdir (fs w) path) as [e|entries] eqn:Hl;
    [by apply listing_ok_nil|].
  repeat case_match; try (by apply listing_ok_nil).
  destruct (listdir_children _ _ _ Hl) as [k ->].
  unfold listing_ok. cbn [app set_app file_store]. rewrite append_rows_omap. cbn [app].
  split; [|split].
  - apply row_names_sorted, StronglySorted_merge_sort; apply _.
  - apply row_names_NoDup.
    rewrite (merge_sort_Permutation String.le). apply children_NoDup.
  - apply Forall_forall. intros n Hn. by apply elem_of_row_names in Hn as (_ & ? & _).
Qed.

(** A property of the rows that every load keeps is kept by every event. *)
Lemma step_store_inv (P : World -> Prop) :
  (forall w w', file_store (app w') = file_store (app w) -> P w -> P w') ->
  (forall w p, P w -> P (load_directory w p)) ->
  forall w ev, P w -> P (step w ev).
Proof.
  intros Hsame Hload w ev Hw.
  assert (Hls : forall w1 p m, file_store (app w1) = file_store (app w) ->
            P (send_message (load_directory w1 p) m)).
  { intros w1 p m Hs. apply (Hsame (load_directory w1 p)); [done|].
    apply Hload. by apply (Hsame w). }
  destruct ev as [c|t| |i|i|f]; cbn [step].
  - unfold handle_command. repeat case_match; try (by apply (Hsame w)).
    + unfold handle_upload. repeat case_match; try (by apply (Hsame w)).
      by apply Hls.
    + unfold handle_download_request. repeat case_match; by apply (Hsame w).
    + unfold handle_delete. repeat case_match; try (by apply (Hsame w));
        by apply Hls.
  - unfold on_path_changed. case_match; [|by apply (Hsame w)]. by apply Hls.
  - unfold on_up_clicked. case_match; [|done]. by apply Hls.
  - unfold on_file_activated. repeat case_match; try done.
    + by apply Hls.
    + apply (Hsame w); [|done]. by destruct (preview_file_keeps_model w (row_path r)) as (_ & -> & _).
  - unfold select_row. case_bool_decide; [|done].
    unfold on_selection_changed. apply (Hsame w); [|done].
    case_match; [|done]. cbn [app send_state send_message].
    by destruct (preview_file_keeps_model (set_selection w (Some i))
                   (sel_path (get_selected_file (set_selection w (Some i)))))
      as (_ & -> & _).
  - by apply (Hsame w).
Qed.

(** X15. In every reachable state the rows are sorted by name, no name
    occurs twice and no name is hidden; so a selection, when present, is a
    visible child of the current directory, and no command ever acts on a
    hidden entry. *)
Theorem X15_listing_invariant (w : World) :
  reachable w ->
  listing_ok w
  /\ (forall p, get_selected_file w = Some p ->
        exists r, r ∈ file_store (app w)
          /\ p = Path.join (current_path (app w)) (row_name r)
          /\ Str.startswith Str.dot (row_name r) = false).
Proof.
  intros Hr.
  assert (Hl : listing_ok w).
  { induction Hr as [home f th ld ra|w ev _ IH].
    - unfold init.
      match goal with
      | |- listing_ok (send_state (load_directory ?x ?p)) =>
          change (listing_ok (load_directory x p));
          apply load_directory_listing_ok
      end.
      by apply listing_ok_nil.
    - revert IH. apply step_store_inv.
      + unfold listing_ok. by intros ?? ->.
      + apply load_directory_listing_ok. }
  split; [done|]. intros p Hs.
  destruct (reachable_wf w Hr) as [Hrows _].
  unfold get_selected_file in Hs.
  destruct (selection (app w)) as [i|]; [|done].
  destruct (file_store (app w) !! i) as [r|] eqn:Hi; [|done].
  injection Hs as <-.
  assert (Hin : r ∈ file_store (app w)) by (by eapply list_elem_of_lookup_2).
  exists r. split; [done|]. split; [by apply Hrows|].
  destruct Hl as (_ & _ & Hv). rewrite Forall_forall in Hv.
  apply Hv. by apply list_elem_of_fmap_2.
Qed.

Lemma X15_listing_invariant_witness :
  listing_ok (step (step Sample.w0 (Command (upload_command "n.txt" "aGk=")))
                (RowSelected 3))
  /\ (forall p,
        get_selected_file
          (step (step Sample.w0 (Command (upload_command "n.txt" "aGk=")))
             (RowSelected 3)) = Some p ->
        exists r,
          r ∈ file_store
                (app (step (step Sample.w0 (Command (upload_command "n.txt" "aGk=")))
                        (RowSelected 3)))
          /\ p = Path.join
                   (current_path
                      (app (step (step Sample.w0 (Command (upload_command "n.txt" "aGk=")))
                              (RowSelected 3))))
                   (row_name r)
          /\ Str.startswith Str.dot (row_name r) = false).
Proof.
  apply (X15_listing_invariant
           (step (step Sample.w0 (Command (upload_command "n.txt" "aGk=")))
              (RowSelected 3))).
  apply reach_step, reach_step, reach_init.
Defined.

(** X16. After a load the rows agree with the file system: a row that is a
    directory has the folder icon and an empty size column, and a row whose
    file can be read has the file icon and, as its size, the number of bytes
    a download of it would send. *)
Theorem X16_rows_match_file_system (w : World) (path : string) (r : row) :
  Os.isdir (fs w) path = true ->
  r ∈ file_store (app (load_directory w path)) ->
  row_path r = Path.join path (row_name r)
  /\ (Os.isdir (fs w) (row_path r) = true ->
      row_icon r = FolderIcon /\ row_size r = None /\ size_text r = "")
  /\ (forall bs, Os.read (fs w) (row_path r) = inr bs ->
        row_icon r = FileIcon /\ row_size r = Some (N.of_nat (length bs))).
Proof.
  intros Hd Hr.
  destruct (load_directory_rows_stat w path r Hd Hr) as (e & sz & Hrow & _).
  unfold row_of in Hrow.
  destruct (Str.startswith Str.dot e); [done|].
  destruct (Os.stat (fs w) (Path.join path e)) as [?|sz'] eqn:Hstat; [done|].
  injection Hrow as <-. cbn [row_path row_name row_icon row_size].
  split; [done|]. split.
  - intros ->. by unfold size_text.
  - intros bs Hread. revert Hstat Hread. unfold Os.stat, Os.read, Os.isdir.
    destruct (Os.resolve (fs w) (Path.join path e)) as [?|k] eqn:Hres; [done|].
    assert (Hk : Os.namei (fs w) (Path.join path e) = Some k).
    { revert Hres. unfold Os.resolve. repeat case_match; congruence. }
    rewrite Hk. unfold Os.is_dir_key.
    destruct (nodes (fs w) !! k) as [[rd wr d| |]|]; try done.
    destruct rd; [|done]. by intros [= <-] [= <-].
Qed.

Lemma X16_rows_match_file_system_witness :
  row_path (mkRow FileIcon "a.txt" (Some 5%N) "/tmp/x/a.txt")
  = Path.join "/tmp/x" (row_name (mkRow FileIcon "a.txt" (Some 5%N) "/tmp/x/a.txt"))
  /\ (Os.isdir (fs Sample.w0)
        (row_path (mkRow FileIcon "a.txt" (Some 5%N) "/tmp/x/a.txt")) = true ->
      row_icon (mkRow FileIcon "a.txt" (Some 5%N) "/tmp/x/a.txt") = FolderIcon
      /\ row_size (mkRow FileIcon "a.txt" (Some 5%N) "/tmp/x/a.txt") = None
      /\ size_text (mkRow FileIcon "a.txt" (Some 5%N) "/tmp/x/a.txt") = "")
  /\ (forall bs,
        Os.read (fs Sample.w0)
          (row_path (mkRow FileIcon "a.txt" (Some 5%N) "/tmp/x/a.txt")) = inr bs ->
        row_icon (mkRow FileIcon "a.txt" (Some 5%N) "/tmp/x/a.txt") = FileIcon
        /\ row_size (mkRow FileIcon "a.txt" (Some 5%N) "/tmp/x/a.txt")
           = Some (N.of_nat (length bs))).
Proof.
  apply (X16_rows_match_file_system Sample.w0 "/tmp/x"
           (mkRow FileIcon "a.txt" (Some 5%N) "/tmp/x/a.txt")).
  - vm_compute; reflexivity.
  - vm_compute. apply list_elem_of_here.
Defined.

Lemma state_of_sound (w : World) : sound_message (state_of w).
Proof.
  unfold state_of, sound_message. rewrite actions_by_kind. unfold sel_kind_of.
  destruct (get_selected_file w) as [p|]; [|by left].
  cbn [sel_truthy]. repeat case_match; auto; right; split; auto.
Qed.

(** What one event adds to standard output. *)
Lemma step_emits (w : World) (ev : event) :
  exists l, stdout (step w ev) = stdout w ++ l
            /\ length l <= 1 /\ Forall sound_message l.
Proof.
  assert (H0 : exists l, stdout w = stdout w ++ l
                         /\ length l <= 1 /\ Forall sound_message l).
  { exists []. rewrite app_nil_r. repeat split; [cbn; lia | constructor]. }
  assert (H1 : forall w1 m, stdout w1 = stdout w -> sound_message m ->
            exists l, stdout (send_message w1 m) = stdout w ++ l
                      /\ length l <= 1 /\ Forall sound_message l).
  { intros w1 m E Hm. exists [m]. cbn [stdout send_message]. rewrite E.
    repeat split; [cbn; lia | by constructor]. }
  assert (H2 : forall w1, stdout w1 = stdout w ->
            exists l, stdout (send_state w1) = stdout w ++ l
                      /\ length l <= 1 /\ Forall sound_message l).
  { intros w1 E. apply H1; [done|]. apply (state_of_sound w1). }
  destruct ev as [c|t| |i|i|f]; cbn [step].
  - unfold handle_command. repeat case_match; try done.
    + unfold handle_upload. repeat case_match; try done; apply H1; try done.
      by rewrite load_directory_stdout.
    + unfold handle_download_request. repeat case_match; try done; by apply H1.
    + unfold handle_delete. repeat case_match; try done; apply H1; try done;
        by rewrite load_directory_stdout.
  - unfold on_path_changed. case_match; [|done].
    apply H2. by rewrite load_directory_stdout.
  - unfold on_up_clicked. case_match; [|done].
    apply H2. by rewrite load_directory_stdout.
  - unfold on_file_activated. repeat case_match; try done.
    + apply H2. by rewrite load_directory_stdout.
    + exists []. rewrite app_nil_r, preview_file_stdout.
      repeat split; [cbn; lia | constructor].
  - unfold select_row. case_bool_decide; [|done].
    unfold on_selection_changed. apply H2.
    case_match; [|done]. by rewrite preview_file_stdout.
  - done.
Qed.

(** X17. One event, at most one message: a command, a gesture or a change
    made by another process adds at most one message to standard output and
    never takes one back. *)
Theorem X17_one_message_per_event (w : World) (ev : event) :
  exists l, stdout (step w ev) = stdout w ++ l /\ length l <= 1.
Proof.
  destruct (step_emits w ev) as (l & Hl & Hlen & _). eauto.
Qed.

(** X18. Every state message of a run is sound: its actions are [upload]
    alone, or, only when a path is selected, [upload, download, delete] or
    [upload, delete].  So [upload] is always offered, [download] never comes
    without [delete], and neither is offered with nothing selected. *)
Theorem X18_state_messages_sound (w : World) :
  reachable w -> Forall sound_message (stdout w).
Proof.
  induction 1 as [home f th ld ra|w ev _ IH].
  - unfold init.
    match goal with
    | |- Forall _ (stdout (send_state ?x)) =>
        rewrite (send_state_stdout x), load_directory_stdout
    end.
    cbn. constructor; [|constructor].
    match goal with |- sound_message (state_of ?x) => apply (state_of_sound x) end.
  - destruct (step_emits w ev) as (l & -> & _ & Hl). by apply Forall_app.
Qed.

Lemma X18_state_messages_sound_witness :
  Forall sound_message
    (stdout (step (step (step Sample.w0 (RowSelected 0)) (Command delete_command))
               (RowSelected 0))).
Proof.
  apply (X18_state_messages_sound
           (step (step (step Sample.w0 (RowSelected 0)) (Command delete_command))
              (RowSelected 0))).
  apply reach_step, reach_step, reach_step, reach_init.
Defined.

(** *** Preview *)

(** X19. A preview only draws: it changes neither the path, the rows nor the
    selection, neither the file system nor either output stream, and it
    always leaves exactly one widget in the preview box, whatever was there
    before and whether or not the file could be shown. *)
Theorem X19_preview_only_draws (w : World) (p : string) :
  keeps_model w (preview_file w p)
  /\ fs (preview_file w p) = fs w
  /\ stdout (preview_file w p) = stdout w
  /\ stderr (preview_file w p) = stderr w
  /\ length (preview_box (app (preview_file w p))) = 1.
Proof.
  split; [apply preview_file_keeps_model|].
  split; [apply preview_file_fs|]. split; [apply preview_file_stdout|].
  unfold preview_file, preview_image, preview_text. by repeat case_match.
Qed.

(** X20. A file with a text extension whose at most 10,000 bytes are not
    UTF-8, or which cannot be read, is not shown in part and nothing is put in
    place of the bad bytes: the preview is one label that reports the
    failure. *)
Theorem X20_text_preview_failure (w : World) (p : string) :
  Str.lower (Path.splitext_ext p) ∈ text_exts ->
  (exists e, Os.read (fs w) p = inl e)
  \/ (exists bs, Os.read (fs w) p = inr bs /\ length bs <= 10000
                 /\ Text.utf8_decode bs = None) ->
  exists msg,
    preview_box (app (preview_file w p)) = [Label ("Error loading text: " +:+ msg)].
Proof.
  intros Hext Hbad. unfold preview_file. rewrite (text_ext_not_image _ Hext).
  rewrite bool_decide_eq_true_2 by done.
  unfold preview_text. cbn [fs set_preview set_app text_reads_on].
  destruct Hbad as [[e He]|(bs & Hr & Hn & Hd)].
  - unfold Text.read. rewrite He. by eexists.
  - rewrite (read_undecodable _ _ _ _ _ Hr Hd Hn). by eexists.
Qed.

Lemma X20_text_preview_failure_witness :
  exists msg,
    preview_box (app (preview_file
                        (set_fs Sample.w0
                           (with_file Sample.disk ["tmp"; "x"; "a.txt"] [xc3; x28]))
                        "/tmp/x/a.txt"))
    = [Label ("Error loading text: " +:+ msg)].
Proof.
  apply (X20_text_preview_failure
           (set_fs Sample.w0 (with_file Sample.disk ["tmp"; "x"; "a.txt"] [xc3; x28]))
           "/tmp/x/a.txt").
  - apply list_elem_of_here.
  - right. exists [xc3; x28]. split; [vm_compute; reflexivity|].
    split; [|reflexivity]. apply Nat.leb_le. vm_compute. reflexivity.
Defined.

(** X27. For content that is UTF-8 to its end the text view holds the first
    10,000 characters of the decoded text, line ends translated, however the
    reader fetches the file: the cap counts characters, not bytes. *)
Theorem X27_text_cap_counts_characters (w : World) (p : string)
    (bs : list byte) (cs : list N) :
  Str.lower (Path.splitext_ext p) ∈ text_exts ->
  Os.read (fs w) p = inr bs ->
  Text.utf8_decode bs = Some cs ->
  preview_box (app (preview_file w p))
  = [TextView (take 10000 (Text.universal_newlines cs))].
Proof.
  intros Hext Hread Hdec. unfold preview_file.
  rewrite (text_ext_not_image _ Hext).
  rewrite bool_decide_eq_true_2 by done.
  unfold preview_text. cbn [fs set_preview set_app text_reads_on].
  by rewrite (read_decodable _ _ _ _ _ _ Hread Hdec).
Qed.

Lemma X27_text_cap_counts_characters_witness :
  preview_box (app (preview_file (Sample.accents_world 3) "/d/a.txt"))
  = [TextView (take 10000 (Text.universal_newlines [233; 233; 233]%N))]
  /\ length (Sample.accents 3) = 6.
Proof.
  split; [|reflexivity].
  apply (X27_text_cap_counts_characters (Sample.accents_world 3) "/d/a.txt"
           (Sample.accents 3) [233; 233; 233]%N).
  - apply list_elem_of_here.
  - vm_compute; reflexivity.
  - vm_compute; reflexivity.
Defined.

(** With 10,000 characters in front of a byte that does not decode, the
    outcome depends on how far the reader has fetched: the text when it
    stopped before that byte, the error when its chunk took the byte in. *)
Example read_past_the_cap :
  let f := with_file (Sample.text_disk 0) ["d"; "a.txt"]
             (Sample.letters 10000 ++ [xff]) in
  Text.read f "/d/a.txt" 10000 Sample.frugal = inr (repeat 97%N 10000)
  /\ Text.read f "/d/a.txt" 10000 Sample.greedy
     = inl (UnicodeDecodeError "'utf-8' codec can't decode bytes")
  /\ Text.read (with_file (Sample.text_disk 0) ["d"; "a.txt"]
                  (Sample.letters 9999 ++ [xff]))
       "/d/a.txt" 10000 Sample.frugal
     = inl (UnicodeDecodeError "'utf-8' codec can't decode bytes").
Proof. repeat split; vm_compute; reflexivity. Qed.

(** X21. Selecting a row reports it: the one message emitted is the state
    message with the row's path as the selection and the actions of its kind,
    and [get_selected_file] then returns that path.  Selecting a row that is
    not a regular file leaves the preview as it was. *)
Theorem X21_select_row_reports (w : World) (i : nat) (r : row) :
  file_store (app w) !! i = Some r ->
  let w' := select_row w i in
  get_selected_file w' = Some (row_path r)
  /\ emitted w w'
     = [MState (current_path (app w)) (Some (row_path r))
          (get_available_actions (fs w) (Some (row_path r)))]
  /\ fs w' = fs w
  /\ (Os.isfile (fs w) (row_path r) = false ->
      preview_box (app w') = preview_box (app w)).
Proof.
  intros Hi w'.
  assert (Hsel : get_selected_file (set_selection w (Some i)) = Some (row_path r)).
  { unfold get_selected_file. cbn [app set_selection set_app selection file_store].
    by rewrite Hi. }
  assert (Hw : w' = on_selection_changed (set_selection w (Some i))).
  { subst w'. unfold select_row.
    by rewrite bool_decide_eq_true_2 by (by eapply lookup_lt_Some). }
  rewrite Hw. unfold on_selection_changed. rewrite Hsel.
  cbn [sel_truthy sel_path fs set_selection set_app].
  destruct (negb (Str.is_empty (row_path r)) && Os.isfile (fs w) (row_path r)) eqn:Hp.
  - pose proof (preview_file_keeps_model (set_selection w (Some i)) (row_path r))
      as Hkeep.
    pose proof (get_selected_file_keeps _ _ Hkeep) as Hg. rewrite Hsel in Hg.
    destruct Hkeep as (Hc & _ & _).
    split; [exact Hg|]. split.
    + apply emitted_app. unfold send_state.
      cbn [stdout send_message]. rewrite preview_file_stdout, preview_file_fs, Hg, Hc.
      done.
    + split; [cbn [fs send_state send_message]; by rewrite preview_file_fs|].
      intros Hf. rewrite Hf, andb_false_r in Hp. done.
  - split; [exact Hsel|]. split.
    + apply emitted_app. unfold send_state. by rewrite Hsel.
    + done.
Qed.

Lemma X21_select_row_reports_witness :
  let w' := select_row Sample.w0 1 in
  get_selected_file w' = Some "/tmp/x/b"
  /\ emitted Sample.w0 w'
     = [MState (current_path (app Sample.w0)) (Some "/tmp/x/b")
          (get_available_actions (fs Sample.w0) (Some "/tmp/x/b"))]
  /\ fs w' = fs Sample.w0
  /\ (Os.isfile (fs Sample.w0) "/tmp/x/b" = false ->
      preview_box (app w') = preview_box (app Sample.w0)).
Proof.
  apply (X21_select_row_reports Sample.w0 1 (mkRow FolderIcon "b" None "/tmp/x/b")).
  vm_compute; reflexivity.
Defined.

(** X22. A text typed into the path entry that is not a directory changes
    only the entry: nothing is emitted and the path, rows and selection stay.
    A directory typed there becomes the current path as typed, with nothing
    selected, and the one message is its state with [upload] alone. *)
Theorem X22_path_entered (w : World) (text : string) :
  (Os.isdir (fs w) text = false ->
   stdout (on_path_changed w text) = stdout w
   /\ keeps_model w (on_path_changed w text)
   /\ path_entry (app (on_path_changed w text)) = text)
  /\ (Os.isdir (fs w) text = true ->
      current_path (app (on_path_changed w text)) = text
      /\ get_selected_file (on_path_changed w text) = None
      /\ emitted w (on_path_changed w text) = [MState text None ["upload"]]).
Proof.
  unfold on_path_changed. cbn [fs set_path_entry set_app]. split; intros Hd; rewrite Hd.
  - by repeat split.
  - destruct (load_directory_dir (set_path_entry w text) text Hd) as [Hc Hs].
    split; [done|]. split; [by apply get_selected_file_cleared|].
    apply emitted_app. unfold send_state, get_selected_file.
    cbn [stdout send_message]. by rewrite load_directory_stdout, Hc, Hs.
Qed.

(** *** The size column *)

Lemma append_assoc (a b c : string) : (a +:+ b) +:+ c = a +:+ (b +:+ c).
Proof. induction a as [|x a IH]; [done|]. by rewrite !append_cons, IH. Qed.

(** X23. A size below 1024 is shown as the number itself with [.0] and the
    unit [B]. *)
Theorem X23_format_size_bytes (n : N) :
  (n < 1024)%N -> format_size n = dec n +:+ ".0 B".
Proof.
  intros Hn. unfold format_size. cbn [format_size_loop].
  replace (n <? 1024 * 1)%N with true by (symmetry; apply N.ltb_lt; lia).
  unfold fmt1, tenths. rewrite N.mod_1_r, N.div_1_r.
  change (1 <? 2 * 0)%N with false. change (2 * 0 =? 1)%N with false.
  cbn [orb andb].
  replace (n * 10 / 10)%N with n by (symmetry; apply N.div_mul; lia).
  replace ((n * 10) mod 10)%N with 0%N by (symmetry; apply N.Div0.mod_mul).
  by rewrite !append_assoc.
Qed.

Lemma X23_format_size_bytes_witness : format_size 5 = dec 5 +:+ ".0 B".
Proof. apply (X23_format_size_bytes 5). reflexivity. Defined.

(** The tenths printed are the nearest to the value: off by at most half a
    tenth. *)
Lemma tenths_nearest (num den : N) :
  (0 < den)%N ->
  (2 * (tenths num den * den - num * 10) <= den
   /\ 2 * (num * 10 - tenths num den * den) <= den)%N.
Proof.
  intros Hden. unfold tenths.
  pose proof (N.div_mod (num * 10) den ltac:(lia)) as Hdm.
  pose proof (N.mod_lt (num * 10) den ltac:(lia)) as Hlt.
  generalize dependent (num * 10 / den)%N. intros q.
  generalize dependent ((num * 10) mod den)%N. intros r Hr Hlt.
  generalize dependent (num * 10)%N. intros m ->.
  destruct (den <? 2 * r)%N eqn:H1; cbn [orb].
  - apply N.ltb_lt in H1. lia.
  - apply N.ltb_ge in H1.
    destruct (2 * r =? den)%N eqn:H2; cbn [andb]; [|lia].
    apply N.eqb_eq in H2. destruct (N.odd q); lia.
Qed.

(** X24. The unit follows the magnitude and the number is the size in that
    unit to the nearest tenth: below 1024 in [B], below 1024^2 in [KB], below
    1024^3 in [MB], below 1024^4 in [GB], and everything from 1024^4 on in
    [TB], however large. *)
Theorem X24_format_size_units (n : N) :
  (n < 2 ^ 53)%N ->
  exists (k : N) (unit : string),
    format_size n = fmt1 n (1024 ^ k) +:+ " " +:+ unit
    /\ (k, unit) = (if (n <? 1024)%N then (0%N, "B")
                    else if (n <? 1024 ^ 2)%N then (1%N, "KB")
                    else if (n <? 1024 ^ 3)%N then (2%N, "MB")
                    else if (n <? 1024 ^ 4)%N then (3%N, "GB")
                    else (4%N, "TB"))
    /\ (2 * (tenths n (1024 ^ k) * 1024 ^ k - n * 10) <= 1024 ^ k
        /\ 2 * (n * 10 - tenths n (1024 ^ k) * 1024 ^ k) <= 1024 ^ k)%N.
Proof.
  intros _. unfold format_size. cbn [format_size_loop].
  change (1024 * 1)%N with (1024 ^ 1)%N.
  change (1024 * 1024 ^ 1)%N with (1024 ^ 2)%N.
  change (1024 * 1024 ^ 2)%N with (1024 ^ 3)%N.
  change (1024 * 1024 ^ 3)%N with (1024 ^ 4)%N.
  change (1024 ^ 1)%N with 1024%N.
  destruct (n <? 1024)%N.
  { exists 0%N, "B". split; [done|]. split; [done|]. by apply tenths_nearest. }
  destruct (n <? 1024 ^ 2)%N.
  { exists 1%N, "KB". split; [done|]. split; [done|]. by apply tenths_nearest. }
  destruct (n <? 1024 ^ 3)%N.
  { exists 2%N, "MB". split; [done|]. split; [done|]. by apply tenths_nearest. }
  destruct (n <? 1024 ^ 4)%N.
  { exists 3%N, "GB". split; [done|]. split; [done|]. by apply tenths_nearest. }
  exists 4%N, "TB". split; [done|]. split; [done|]. by apply tenths_nearest.
Qed.

Lemma X24_format_size_units_witness :
  exists (k : N) (unit : string),
    format_size 1536 = fmt1 1536 (1024 ^ k) +:+ " " +:+ unit
    /\ (k, unit) = (1%N, "KB")
    /\ (2 * (tenths 1536 (1024 ^ k) * 1024 ^ k - 1536 * 10) <= 1024 ^ k
        /\ 2 * (1536 * 10 - tenths 1536 (1024 ^ k) * 1024 ^ k) <= 1024 ^ k)%N.
Proof.
  apply (X24_format_size_units 1536). reflexivity.
Defined.

(** X25. The unit is chosen before the number is rounded: the last 51 sizes
    below 1024^2 bytes are shown as [1024.0 KB], not as [1.0 MB]. *)
Theorem X25_format_size_rounds_past_unit (n : N) :
  (1048525 <= n < 1048576)%N -> format_size n = "1024.0 KB".
Proof.
  intros [Hlo Hhi]. unfold format_size. cbn [format_size_loop].
  replace (n <? 1024 * 1)%N with false by (symmetry; apply N.ltb_ge; lia).
  replace (n <? 1024 * (1024 * 1))%N with true by (symmetry; apply N.ltb_lt; lia).
  assert (Ht : tenths n (1024 * 1) = 10240%N).
  { unfold tenths. change (1024 * 1)%N with 1024%N.
    pose proof (N.div_mod (n * 10) 1024 ltac:(lia)) as Hdm.
    pose proof (N.mod_lt (n * 10) 1024 ltac:(lia)) as Hlt.
    assert (Hq : (n * 10 / 1024 = 10239)%N)
      by (symmetry; apply (N.div_unique _ _ _ (n * 10 - 10484736)%N); lia).
    rewrite Hq in *.
    replace (1024 <? 2 * ((n * 10) mod 1024))%N with true
      by (symmetry; apply N.ltb_lt; lia).
    reflexivity. }
  unfold fmt1. rewrite Ht. reflexivity.
Qed.

Lemma X25_format_size_rounds_past_unit_witness : format_size 1048575 = "1024.0 KB".
Proof. apply (X25_format_size_rounds_past_unit 1048575). split; reflexivity || lia. Defined.

(** *** State messages of the view *)

(** X26. Every view operation that changes the path or the selection ends by
    emitting the state message of the state it reaches: the start of the
    explorer, a directory typed into the path entry, going up, activating a
    directory row, and selecting a row. *)
Theorem X26_view_operations_emit_state :
  (forall home f th ld ra,
     stdout (init home f th ld ra) = [state_of (init home f th ld ra)])
  /\ (forall (w : World) (text : string),
        Os.isdir (fs w) text = true ->
        stdout (on_path_changed w text)
        = stdout w ++ [state_of (on_path_changed w text)])
  /\ (forall w : World,
        Path.dirname (current_path (app w)) <> current_path (app w) ->
        stdout (on_up_clicked w) = stdout w ++ [state_of (on_up_clicked w)])
  /\ (forall (w : World) (i : nat) (r : row),
        file_store (app w) !! i = Some r ->
        Os.isdir (fs w) (row_path r) = true ->
        stdout (on_file_activated w i)
        = stdout w ++ [state_of (on_file_activated w i)])
  /\ (forall (w : World) (i : nat),
        i < length (file_store (app w)) ->
        stdout (select_row w i) = stdout w ++ [state_of (select_row w i)]).
Proof.
  repeat split.
  - intros home f th ld ra. unfold init.
    rewrite send_state_stdout. by rewrite load_directory_stdout.
  - intros w text Hd. unfold on_path_changed. cbn [fs set_path_entry set_app].
    rewrite Hd, send_state_stdout. by rewrite load_directory_stdout.
  - intros w Hne. unfold on_up_clicked.
    rewrite bool_decide_eq_true_2 by done.
    rewrite send_state_stdout. by rewrite load_directory_stdout.
  - intros w i r Hi Hd. unfold on_file_activated. rewrite Hi, Hd.
    rewrite send_state_stdout. by rewrite load_directory_stdout.
  - intros w i Hi. unfold select_row. rewrite bool_decide_eq_true_2 by done.
    unfold on_selection_changed. rewrite send_state_stdout.
    case_match; [|done]. by rewrite preview_file_stdout.
Qed.

Lemma X26_view_operations_emit_state_witness :
  stdout (select_row Sample.w0 0)
  = stdout Sample.w0 ++ [state_of (select_row Sample.w0 0)]
  /\ stdout (on_file_activated Sample.w0 1)
     = stdout Sample.w0 ++ [state_of (on_file_activated Sample.w0 1)]
  /\ stdout (on_up_clicked Sample.w0)
     = stdout Sample.w0 ++ [state_of (on_up_clicked Sample.w0)].
Proof.
  destruct X26_view_operations_emit_state as (_ & _ & Hup & Hact & Hsel).
  split; [|split].
  - apply (Hsel Sample.w0 0). vm_compute. lia.
  - apply (Hact Sample.w0 1 (mkRow FolderIcon "b" None "/tmp/x/b"));
      vm_compute; reflexivity.
  - apply (Hup Sample.w0). vm_compute. discriminate.
Defined.

End More.
